(** * kindler.retinanet: heads, targets and losses of a RetinaNet detector

    A shallow embedding of [kindler/retinanet/_retinanet.py].

    Conventions of the embedding.
    - The entries of float tensors and Python floats are real numbers
      ([R]): they stand for finite floats; rounding, overflow to inf
      and nan are not modelled.  A real number stated below is the one
      the float approximates, and statements about the value of a
      forward pass are made for intermediate tensors with real (finite)
      entries.
    - A tensor is a nested list, outermost axis first; its shape is the
      nesting.  Behind an axis of size 0 the nesting does not show the
      sizes of the later axes: they are read as positive, and as equal
      across the tensors of one call.  A tensor handed to a loss module
      is wrapped in [tensor], which keeps apart float tensors and bool
      tensors.
    - A Python exception is a value [Raise e] of the [result] monad.
    - A loss is a tensor of rank 0, an object: the dict of losses holds
      references into a heap, and [+=] on a tensor adds in place.
    - [anchor_states] is an integer tensor ([Z]); the three states are
      1 (positive), 0 (negative) and -1 (ignore). *)

From Stdlib Require Import Reals Lra ZArith.
From stdpp Require Import gmap strings list fin_maps functions pretty.

(** ** Exceptions *)

Inductive exn : Set :=
  | IndexError
  | KeyError
  | AssertionError
  | TypeError
  | ValueError
  | ZeroDivisionError
  | AttributeError
  | OverflowError
  | RuntimeError.

Inductive result (A : Type) : Type :=
  | Ok (a : A)
  | Raise (e : exn).

Arguments Ok {A} a.
Arguments Raise {A} e.

#[global] Instance result_ret : MRet result := @Ok.

#[global] Instance result_bind : MBind result :=
  λ A B f m, match m with Ok a => f a | Raise e => Raise e end.

#[global] Instance result_fmap : FMap result :=
  λ A B f m, match m with Ok a => Ok (f a) | Raise e => Raise e end.

(** ** Tensors seen by a loss module *)

Inductive tensor : Type :=
  | Vec (v : list R)
  | Mat (m : list (list R))
  | BoolVec (v : list bool).

(** A loss module is called on a prediction and a target; it returns a
    loss or raises. *)
Definition loss_fn : Type := tensor → tensor → result R.

(** [t == c] and [t != c] on an integer tensor of rank 2. *)
Definition eq_scalar (t : list (list Z)) (c : Z) : list (list bool) :=
  (λ row : list Z, (λ s, Z.eqb s c) <$> row) <$> t.

Definition ne_scalar (t : list (list Z)) (c : Z) : list (list bool) :=
  (λ row : list Z, (λ s, negb (Z.eqb s c)) <$> row) <$> t.

(** ** Indexing *)

(** [t[mask]] for a boolean [mask] of rank 2: the entries of [t] along
    its two leading axes where [mask] holds, in row-major order.  torch
    raises IndexError when the shape of the mask differs from the two
    leading dimensions of [t]. *)
Fixpoint select_row {A} (m : list bool) (t : list A) : result (list A) :=
  match m, t with
  | [], [] => Ok []
  | b :: m, x :: t => r ← select_row m t; Ok (if b then x :: r else r)
  | _, _ => Raise IndexError
  end.

Fixpoint index_mask {A} (m : list (list bool)) (t : list (list A))
  : result (list A) :=
  match m, t with
  | [], [] => Ok []
  | mr :: m, tr :: t =>
      a ← select_row mr tr; b ← index_mask m t; Ok (a ++ b)
  | _, _ => Raise IndexError
  end.

(** [row[-1]]: IndexError on an axis of size 0. *)
Definition index_last (row : list R) : result R :=
  match last row with
  | Some x => Ok x
  | None => Raise IndexError
  end.

Fixpoint map_result {A B} (f : A → result B) (l : list A) : result (list B) :=
  match l with
  | [] => Ok []
  | x :: l => y ← f x; ys ← map_result f l; Ok (y :: ys)
  end.

(** [t[..., -1]] on a tensor of rank 3. *)
Definition last_channel (t : list (list (list R))) : result (list (list R)) :=
  map_result (map_result index_last) t.

(** [t[..., :-1]] on a tensor of rank 3; a slice never raises. *)
Definition drop_last_channel (t : list (list (list R))) : list (list (list R)) :=
  (λ img : list (list R), (λ row : list R, removelast row) <$> img) <$> t.

(** [d[k]] on a dict. *)
Definition dict_get {V} (d : gmap string V) (k : string) : result V :=
  match d !! k with
  | Some v => Ok v
  | None => Raise KeyError
  end.

(** ** Loss tensors *)

(** The tensors of rank 0 a forward pass creates are numbered in the
    order of their creation; a reference is such a number. *)
Record heap : Type := Heap {
  next : nat;
  value : nat → R
}.

Definition empty_heap : heap := Heap 0 (λ _, 0%R).

(** A new tensor holding [v]. *)
Definition new (v : R) (h : heap) : nat * heap :=
  (next h, Heap (S (next h)) (<[next h := v]> (value h))).

(** [a += b] on tensors: [a] is updated in place and stays the same
    object, so every reference to it sees the sum. *)
Definition iadd (a b : nat) (h : heap) : heap :=
  Heap (next h) (<[a := (value h a + value h b)%R]> (value h)).

(** ** ComputeLosses *)

Module ComputeLosses.

Record t : Type := Build {
  reg_weight : R;
  use_bg_predictor : bool;
  cls_loss_fn : loss_fn;
  reg_loss_fn : loss_fn
}.

Section Init.
(** The loss modules come from [kindler.modules] and [torch.nn];
    the constructor only selects among them. *)
Variable FocalLoss : R → R → loss_fn.
Variable BCELoss : loss_fn.
Variable SmoothL1Loss : R → loss_fn.

Definition __init__
    (use_focal_loss : bool) (focal_alpha focal_gamma : R)
    (reg_weight reg_beta : R) (use_bg_predictor : bool) : t :=
  {| reg_weight := reg_weight;
     use_bg_predictor := use_bg_predictor;
     cls_loss_fn :=
       if use_focal_loss then FocalLoss focal_alpha focal_gamma
       else BCELoss;
     reg_loss_fn := SmoothL1Loss reg_beta |}.
End Init.

(** The forward pass on tensor objects: the dict of references it
    returns and the heap they point into. *)
Definition forward_tensors (self : t)
    (cls_output reg_output cls_target reg_target : list (list (list R)))
    (anchor_states : list (list Z)) : result (gmap string nat * heap) :=
  let loss_dict : gmap string nat := ∅ in
  let h := empty_heap in
  '(loss_dict, h) ←
    (if use_bg_predictor self then
       (* Get background output and targets *)
       bg_output ← last_channel cls_output;
       let bg_target := eq_scalar anchor_states 0 in
       (* Remove ignore anchors *)
       bg_output ← index_mask (ne_scalar anchor_states (-1)) bg_output;
       bg_target ← index_mask (ne_scalar anchor_states (-1)) bg_target;
       (* Remove non positive anchors for classification loss *)
       let cls_output := drop_last_channel cls_output in
       cls_output ← index_mask (eq_scalar anchor_states 1) cls_output;
       cls_target ← index_mask (eq_scalar anchor_states 1) cls_target;
       (* Calculate background and classification loss *)
       v ← cls_loss_fn self (Vec bg_output) (BoolVec bg_target);
       let '(l, h) := new v h in
       let loss_dict := <["bg_loss" := l]> loss_dict in
       v ← cls_loss_fn self (Mat cls_output) (Mat cls_target);
       let '(l, h) := new v h in
       let loss_dict := <["cls_loss" := l]> loss_dict in
       bg ← dict_get loss_dict "bg_loss";
       cl ← dict_get loss_dict "cls_loss";
       let '(l, h) := new (value h bg + value h cl) h in
       Ok (<["total_loss" := l]> loss_dict, h)
     else
       (* Remove ignore anchors *)
       cls_output ← index_mask (ne_scalar anchor_states (-1)) cls_output;
       cls_target ← index_mask (ne_scalar anchor_states (-1)) cls_target;
       (* Calculate classification loss *)
       v ← cls_loss_fn self (Mat cls_output) (Mat cls_target);
       let '(l, h) := new v h in
       let loss_dict := <["cls_loss" := l]> loss_dict in
       (* the same tensor under a second key *)
       cl ← dict_get loss_dict "cls_loss";
       Ok (<["total_loss" := cl]> loss_dict, h));
  (* Remove non positive anchors *)
  reg_output ← index_mask (ne_scalar anchor_states 1) reg_output;
  reg_target ← index_mask (ne_scalar anchor_states 1) reg_target;
  (* Compute loss *)
  v ← reg_loss_fn self (Mat reg_output) (Mat reg_target);
  let '(l, h) := new v h in
  let loss_dict := <["reg_loss" := l]> loss_dict in
  tot ← dict_get loss_dict "total_loss";
  reg ← dict_get loss_dict "reg_loss";
  let h := iadd tot reg h in
  Ok (<["total_loss" := tot]> loss_dict, h).

(** What the caller reads in the dict forward returns. *)
Definition forward (self : t)
    (cls_output reg_output cls_target reg_target : list (list (list R)))
    (anchor_states : list (list Z)) : result (gmap string R) :=
  match forward_tensors self cls_output reg_output cls_target reg_target
          anchor_states with
  | Ok (loss_dict, h) => Ok (value h <$> loss_dict)
  | Raise e => Raise e
  end.

End ComputeLosses.

(** ** The loss modules of [kindler.modules] *)

Module Modules.

(** Modelled from the spec: the elementwise term of the missing
    [SmoothL1Loss], "smooth-L1 (Huber, transition point beta, default
    0.11)", "quadratic near zero and linear (scaled) beyond a threshold
    beta". *)
Definition smooth_l1 (beta x : R) : R :=
  if Rlt_dec (Rabs x) beta then (0.5 * x * x / beta)%R
  else (Rabs x - 0.5 * beta)%R.

(** Modelled from the spec: [SmoothL1Loss] is imported from
    [kindler.modules], which is not among the sources.  The spec leaves
    its reduction open: [size_average] selects the mean of the terms,
    otherwise their sum.  The spec speaks of float tensors only; a bool
    tensor is refused. *)
Definition SmoothL1Loss (size_average : bool) (beta : R) : loss_fn :=
  λ input target,
    let reduce (x y : list R) : R :=
      let terms := zip_with (λ a b, smooth_l1 beta (a - b)) x y in
      let total := foldr Rplus 0%R terms in
      if size_average then (total / INR (length terms))%R else total in
    match input, target with
    | Vec x, Vec y => Ok (reduce x y)
    | Mat x, Mat y => Ok (reduce (concat x) (concat y))
    | _, _ => Raise RuntimeError
    end.

End Modules.

(** ** Anchors by state, as the specification words them *)

(** The entries of [t] at the anchors of the batch whose state satisfies
    [P], images in order and anchors in order within an image. *)
Definition anchors_where {A} (P : Z → Prop) `{∀ s, Decision (P s)}
    (states : list (list Z)) (t : list (list A)) : list A :=
  (filter (λ p : Z * A, P p.1) (zip (concat states) (concat t))).*2.

Definition positive (s : Z) : Prop := s = 1%Z.
Definition negative (s : Z) : Prop := s = 0%Z.
Definition ignore (s : Z) : Prop := s = (-1)%Z.

#[global] Instance positive_dec s : Decision (positive s) := Z.eq_dec s 1%Z.
#[global] Instance negative_dec s : Decision (negative s) := Z.eq_dec s 0%Z.
#[global] Instance ignore_dec s : Decision (ignore s) := Z.eq_dec s (-1)%Z.

(** Leading dimensions of [t] agree with the shape of [states]. *)
Definition same_shape {A} (states : list (list Z)) (t : list (list A)) : Prop :=
  Forall2 (λ s r, length s = length r) states t.

(** ** What each loss module is applied to *)

Section LossTerms.
Import ComputeLosses.
Variable self : ComputeLosses.t.
Variables cls_output reg_output cls_target reg_target : list (list (list R)).
Variable anchor_states : list (list Z).

(** Regression rows left by the mask [anchor_states != 1]. *)
Definition reg_loss_value : result R :=
  reg_loss_fn self
    (Mat (anchors_where (λ s, ¬ positive s) anchor_states reg_output))
    (Mat (anchors_where (λ s, ¬ positive s) anchor_states reg_target)).

(** Classification rows of the anchors that are not ignored. *)
Definition cls_loss_value_no_bg : result R :=
  cls_loss_fn self
    (Mat (anchors_where (λ s, ¬ ignore s) anchor_states cls_output))
    (Mat (anchors_where (λ s, ¬ ignore s) anchor_states cls_target)).

(** Background channel of the anchors that are not ignored, against the
    bool tensor that says which of them are negative. *)
Definition bg_loss_value : result R :=
  cls_loss_fn self
    (Vec ((λ row, default 0%R (last row))
            <$> anchors_where (λ s, ¬ ignore s) anchor_states cls_output))
    (BoolVec ((λ s, bool_decide (negative s))
                <$> filter (λ s, ¬ ignore s) (concat anchor_states))).

(** Class channels (all but the last) of the positive anchors. *)
Definition cls_loss_value_bg : result R :=
  cls_loss_fn self
    (Mat ((λ row : list R, removelast row)
            <$> anchors_where positive anchor_states cls_output))
    (Mat (anchors_where positive anchor_states cls_target)).
End LossTerms.

(** The dict forward returns, as the caller reads it: without a
    background predictor one tensor is stored under [cls_loss] and
    [total_loss], and the in-place addition of the regression loss shows
    under both keys; with one, the total is a tensor of its own. *)
Definition losses_read (bg : option R) (cl rg : R) : gmap string R :=
  match bg with
  | None =>
      <["total_loss" := (cl + rg)%R]>
        (<["reg_loss" := rg]>
           (<["total_loss" := (cl + rg)%R]> (<["cls_loss" := (cl + rg)%R]> ∅)))
  | Some bg =>
      <["total_loss" := (bg + cl + rg)%R]>
        (<["reg_loss" := rg]>
           (<["total_loss" := (bg + cl + rg)%R]>
              (<["cls_loss" := cl]> (<["bg_loss" := bg]> ∅))))
  end.

(** ** Feature maps and layers *)

(** A feature map of one image has axes (channel, row, column); a batch
    is a list of them.  A layer raises RuntimeError, as torch does, on a
    batch whose shape it does not accept. *)

Definition sum_R (l : list R) : R := foldr Rplus 0%R l.

(** Entry (c, y, x) of a feature map, 0 outside of it. *)
Definition pixel (img : list (list (list R))) (c y x : nat) : R :=
  default 0%R (row ← (ch ← img !! c; ch !! y); row !! x).

(** The same after zero padding by [pad] on the four sides. *)
Definition padded (pad : nat) (img : list (list (list R))) (c y x : nat) : R :=
  if decide (pad ≤ y ∧ pad ≤ x) then pixel img c (y - pad) (x - pad) else 0%R.

Definition height (img : list (list (list R))) : nat :=
  length (default [] (head img)).

Definition width (img : list (list (list R))) : nat :=
  length (default [] (ch ← head img; head ch)).

(** Every channel of a feature map is an [H] by [W] matrix. *)
Definition rect (H W : nat) (img : list (list (list R))) : Prop :=
  Forall (λ ch, length ch = H ∧ Forall (λ row : list R, length row = W) ch) img.

#[global] Instance rect_dec (H W : nat) (img : list (list (list R))) :
  Decision (rect H W img).
Proof. unfold rect. apply _. Defined.

(** A batch of shape (B, C, H, W): every image has [C] channels of [H]
    by [W] entries. *)
Definition batch_of (C H W : nat) (x : list (list (list (list R)))) : Prop :=
  Forall (λ img, length img = C ∧ rect H W img) x.

(** The draws of torch's default initialiser: the entry of the weight
    and of the bias of the [layer]-th convolution a head creates. *)
Record initializer : Type := {
  draw_weight : nat → nat → nat → nat → nat → R;
  draw_bias : nat → nat → R
}.

Module Conv2d.

(** [weight] has axes (out channel, in channel, ky, kx), [bias] has one
    entry per out channel.  The stride is 1 in both keyword sets of the
    source. *)
Record t : Type := Build {
  in_channels : nat;
  weight : list (list (list (list R)));
  bias : list R;
  kernel_size : nat;
  padding : nat
}.

Definition __init__ (rng : initializer) (layer : nat)
    (in_channels out_channels kernel_size padding : nat) : t :=
  {| in_channels := in_channels;
     weight :=
       (λ o, (λ c, (λ i, (λ j, draw_weight rng layer o c i j)
                           <$> seq 0 kernel_size)
                     <$> seq 0 kernel_size)
               <$> seq 0 in_channels)
         <$> seq 0 out_channels;
     bias := (λ o, draw_bias rng layer o) <$> seq 0 out_channels;
     kernel_size := kernel_size;
     padding := padding |}.

Definition out_size (self : t) (n : nat) : nat :=
  n + 2 * padding self + 1 - kernel_size self.

(** One output entry: the bias plus the kernel applied at (i, j). *)
Definition at_position (self : t) (img : list (list (list R)))
    (w_o : list (list (list R))) (b_o : R) (i j : nat) : R :=
  (b_o +
   sum_R (imap (λ c w_oc,
     sum_R (imap (λ di w_row,
       sum_R (imap (λ dj w, w * padded (padding self) img c (i + di) (j + dj))
                w_row))
       w_oc))
     w_o))%R.

Definition forward_image (self : t) (img : list (list (list R)))
  : list (list (list R)) :=
  zip_with
    (λ w_o b_o,
       (λ i, (λ j, at_position self img w_o b_o i j)
               <$> seq 0 (out_size self (width img)))
         <$> seq 0 (out_size self (height img)))
    (weight self) (bias self).

(** The batches the layer accepts: every image has [in_channels]
    channels, at least one, all of one height and width, and the
    kernel is not larger than the padded image.  (The images of a
    tensor have one shape; it is read off the first.)  An empty batch
    is passed on. *)
Definition accepts (self : t) (x : list (list (list (list R)))) : Prop :=
  match x with
  | [] => True
  | img :: _ =>
      0 < in_channels self
      ∧ kernel_size self ≤ height img + 2 * padding self
      ∧ kernel_size self ≤ width img + 2 * padding self
      ∧ Forall (λ img', length img' = in_channels self
                        ∧ rect (height img) (width img) img') x
  end.

#[global] Instance accepts_dec (self : t) (x : list (list (list (list R)))) :
  Decision (accepts self x).
Proof. destruct x; apply _. Defined.

Definition forward (self : t) (x : list (list (list (list R))))
  : result (list (list (list (list R)))) :=
  if decide (accepts self x) then Ok (forward_image self <$> x)
  else Raise RuntimeError.

End Conv2d.

(** [tensor.fill_(v)] on tensors of rank 4 and 1. *)
Definition fill4 (v : R) (w : list (list (list (list R))))
  : list (list (list (list R))) :=
  (λ a : list (list (list R)),
     (λ b : list (list R), (λ c : list R, (λ _ : R, v) <$> c) <$> b) <$> a) <$> w.

Definition fill1 (v : R) (b : list R) : list R := (λ _ : R, v) <$> b.

Definition map4 (f : R → R) (x : list (list (list (list R))))
  : list (list (list (list R))) :=
  (λ a : list (list (list R)),
     (λ b : list (list R), (λ c : list R, f <$> c) <$> b) <$> a) <$> x.

Definition relu (x : R) : R := Rmax 0 x.

(** The logistic function that [torch.nn.Sigmoid] rounds. *)
Definition sigmoid (x : R) : R := (1 / (1 + exp (- x)))%R.

Inductive layer : Type :=
  | Conv (c : Conv2d.t)
  | ReLU
  | Sigmoid.

Definition layer_forward (l : layer) (x : list (list (list (list R))))
  : result (list (list (list (list R)))) :=
  match l with
  | Conv c => Conv2d.forward c x
  | ReLU => Ok (map4 relu x)
  | Sigmoid => Ok (map4 sigmoid x)
  end.

(** [torch.nn.Sequential] applied to [x]: the layers in order. *)
Definition Sequential (head : list layer) (x : list (list (list (list R))))
  : result (list (list (list (list R)))) :=
  foldl (λ acc l, x ← acc; layer_forward l x) (Ok x) head.

(** The convolution stack shared by the three heads: [num_layers]
    3x3 convolutions, each followed by a ReLU. *)
Definition conv_head (rng : initializer)
    (input_feature_size feature_size num_layers : nat) : list layer :=
  i ← seq 0 num_layers;
  [Conv (Conv2d.__init__ rng i
           (if decide (i = 0) then input_feature_size else feature_size)
           feature_size 3 1);
   ReLU].

(** [-math.log((1 - prior_prob) / prior_prob)] for a finite
    [prior_prob]: the division by 0.0 raises ZeroDivisionError, and
    [math.log] of a number that is not positive raises ValueError.  (On
    inf and nan, which are no reals, Python raises nothing and returns
    nan.) *)
Definition prior_bias (prior_prob : R) : result R :=
  if Req_dec_T prior_prob 0 then Raise ZeroDivisionError
  else if Rle_dec ((1 - prior_prob) / prior_prob) 0 then Raise ValueError
  else Ok (- ln ((1 - prior_prob) / prior_prob))%R.

(** [x.permute(0, 2, 3, 1)] on one image: axes (row, column, channel). *)
Definition permute_image (img : list (list (list R))) : list (list (list R)) :=
  (λ i, (λ j, (λ ch : list (list R), default 0%R (row ← ch !! i; row !! j)) <$> img)
          <$> seq 0 (width img))
    <$> seq 0 (height img).

Fixpoint chunks (n k : nat) (l : list R) : list (list R) :=
  match k with
  | 0 => []
  | S k => take n l :: chunks n k (drop n l)
  end.

(** Per image, the entries in (row, column, channel) order cut into
    rows of [n]. *)
Definition to_anchor_rows (n : nat) (x : list (list (list (list R))))
  : list (list (list R)) :=
  (λ img,
     let flat := concat (concat (permute_image img)) in
     chunks n (length flat / n) flat) <$> x.

(** [x.permute(0, 2, 3, 1).reshape(x.shape[0], -1, n)].  torch raises
    RuntimeError when the batch is empty or [n] is 0 (the size that -1
    stands for is then ambiguous) and when the number of entries of an
    image is not a multiple of [n]. *)
Definition permute_reshape (n : nat) (x : list (list (list (list R))))
  : result (list (list (list R))) :=
  match x with
  | [] => Raise RuntimeError
  | img :: _ =>
      if decide (0 < n ∧ (length img * height img * width img) `mod` n = 0)
      then Ok (to_anchor_rows n x)
      else Raise RuntimeError
  end.

(** ** ClassificationHead *)

Module ClassificationHead.

Record t : Type := Build {
  total_num_classes : nat;
  head : list layer
}.

Definition __init__ (rng : initializer)
    (input_feature_size feature_size num_layers num_anchors num_classes : nat)
    (use_bg_predictor : bool) (prior_prob : R) : result t :=
  let total_num_classes :=
    if use_bg_predictor then num_classes + 1 else num_classes in
  (* Add conv head *)
  let head := conv_head rng input_feature_size feature_size num_layers in
  (* Add classifier layer *)
  let head :=
    head ++ [Conv (Conv2d.__init__ rng num_layers
                     (if decide (num_layers = 0) then input_feature_size
                      else feature_size)
                     (total_num_classes * num_anchors) 1 0)] in
  let head := head ++ [Sigmoid] in
  (* Initialize classification output to prior_prob *)
  match head !! (length head - 2) with
  | Some (Conv c) =>
      b ← prior_bias prior_prob;
      let c' := Conv2d.Build (Conv2d.in_channels c)
                  (fill4 0 (Conv2d.weight c)) (fill1 b (Conv2d.bias c))
                  (Conv2d.kernel_size c) (Conv2d.padding c) in
      Ok {| total_num_classes := total_num_classes;
            head := <[length head - 2 := Conv c']> head |}
  | _ => Raise AttributeError
  end.

Definition forward (self : t) (x : list (list (list (list R))))
  : result (list (list (list R))) :=
  x ← Sequential (head self) x;
  permute_reshape (total_num_classes self) x.

End ClassificationHead.

(** ** RegressionHead *)

Module RegressionHead.

Record t : Type := Build {
  total_num_bbox : nat;
  head : list layer
}.

Definition __init__ (rng : initializer)
    (input_feature_size feature_size num_layers num_anchors : nat)
    (num_classes : option nat) (use_class_specific_bbox : bool) : result t :=
  total_num_bbox ←
    (if use_class_specific_bbox then
       match num_classes with
       | None => Raise AssertionError
       | Some n => Ok (4 * n)
       end
     else Ok 4);
  (* Add conv head *)
  let head := conv_head rng input_feature_size feature_size num_layers in
  (* Add regression layer *)
  let head :=
    head ++ [Conv (Conv2d.__init__ rng num_layers
                     (if decide (num_layers = 0) then input_feature_size
                      else feature_size)
                     (num_anchors * total_num_bbox) 1 0)] in
  Ok {| total_num_bbox := total_num_bbox; head := head |}.

Definition forward (self : t) (x : list (list (list (list R))))
  : result (list (list (list R))) :=
  x ← Sequential (head self) x;
  permute_reshape (total_num_bbox self) x.

End RegressionHead.

(** ** CombinedHead *)

Module CombinedHead.

Record t : Type := Build {
  total_num_classes : nat;
  total_num_bbox : nat;
  split_point : nat;
  head : list layer
}.

Definition __init__ (rng : initializer)
    (input_feature_size feature_size num_layers num_anchors : nat)
    (num_classes : option nat)
    (use_class_specific_bbox use_bg_predictor : bool) (prior_prob : R)
  : result t :=
  (* [None + 1] is a TypeError *)
  total_num_classes ←
    (if use_bg_predictor then
       match num_classes with
       | None => Raise TypeError
       | Some n => Ok (Some (n + 1))
       end
     else Ok num_classes);
  total_num_bbox ←
    (if use_class_specific_bbox then
       match num_classes with
       | None => Raise AssertionError
       | Some n => Ok (4 * n)
       end
     else Ok 4);
  (* [num_anchors * None] is a TypeError *)
  total_num_classes ←
    match total_num_classes with
    | None => Raise TypeError
    | Some n => Ok n
    end;
  let split_point := num_anchors * total_num_classes in
  (* Add conv head *)
  let head := conv_head rng input_feature_size feature_size num_layers in
  (* Add combined layer *)
  let head :=
    head ++ [Conv (Conv2d.__init__ rng num_layers
                     (if decide (num_layers = 0) then input_feature_size
                      else feature_size)
                     (num_anchors * (total_num_classes + total_num_bbox)) 1 0)] in
  (* Initialize classification output to prior_prob: the slices
     [weight[:split_point]] and [bias[:split_point]] are views, filled
     in place *)
  match head !! (length head - 1) with
  | Some (Conv c) =>
      b ← prior_bias prior_prob;
      let c' :=
        Conv2d.Build (Conv2d.in_channels c)
          (fill4 0 (take split_point (Conv2d.weight c))
             ++ drop split_point (Conv2d.weight c))
          (fill1 b (take split_point (Conv2d.bias c))
             ++ drop split_point (Conv2d.bias c))
          (Conv2d.kernel_size c) (Conv2d.padding c) in
      Ok {| total_num_classes := total_num_classes;
            total_num_bbox := total_num_bbox;
            split_point := split_point;
            head := <[length head - 1 := Conv c']> head |}
  | _ => Raise AttributeError
  end.

Definition forward (self : t) (x : list (list (list (list R))))
  : result (list (list (list R)) * list (list (list R))) :=
  x ← Sequential (head self) x;
  classification ←
    permute_reshape (total_num_classes self)
      ((λ img : list (list (list R)), take (split_point self) img)
         <$> (x : list (list (list (list R)))));
  regression ←
    permute_reshape (total_num_bbox self)
      ((λ img : list (list (list R)), drop (split_point self) img)
         <$> (x : list (list (list (list R)))));
  Ok ((λ img : list (list R), (λ row : list R, sigmoid <$> row) <$> img)
        <$> (classification : list (list (list R))),
      regression).

End CombinedHead.

(** ** Entries *)

(** Entry (b, n, k) of a head's output, if there is one. *)
Definition entry (t : list (list (list R))) (b n k : nat) : option R :=
  row ← (img ← t !! b; img !! n); row !! k.

(** ** Stacking *)

(** [torch.stack(tensors, dim=0)]: a RuntimeError on an empty sequence
    and on tensors of different shapes; otherwise the tensors along a
    new leading axis. *)
Definition stack {A} (shape : A → list nat) (tensors : list A) : result (list A) :=
  match tensors with
  | [] => Raise RuntimeError
  | t :: _ =>
      if decide (Forall (λ t', shape t' = shape t) tensors) then Ok tensors
      else Raise RuntimeError
  end.

(** Shape of a nested list of rank 2 (the length of every row) and of
    rank 1. *)
Definition shape2 {A} (m : list (list A)) : list nat := length <$> m.
Definition shape1 {A} (v : list A) : list nat := [length v].

(** ** ComputeTargets *)

Module ComputeTargets.

Record t : Type := Build {
  num_classes : nat;
  use_class_specific_bbox : bool;
  regression_mean : R;
  regression_std : R;
  positive_overlap : R;
  negative_overlap : R
}.

Definition __init__ (num_classes : nat) (use_class_specific_bbox : bool)
    (regression_mean regression_std positive_overlap negative_overlap : R) : t :=
  Build num_classes use_class_specific_bbox regression_mean regression_std
    positive_overlap negative_overlap.

Section Functions.
(** [anchor_targets_bbox] and [bbox_transform] are functions of
    [kindler/utils/anchors.py], which is not among the sources: forward
    takes them as parameters, in the order of the keywords of its two
    calls, and either may raise.  The anchors are a tensor of one row
    per anchor; the annotations of an image and the box targets are
    values forward only hands on. *)
Context {Annotations Boxes : Type}.
Variable anchor_targets_bbox :
  list (list R) → Annotations → nat → bool → R → R →
  result (list (list R) * Boxes * list Z).
Variable bbox_transform :
  list (list R) → Boxes → R → R → result (list (list R)).

(** The body of the loop over the batch. *)
Definition per_image (self : t) (anchors : list (list R))
    (annotations : Annotations)
  : result (list (list R) * list (list R) * list Z) :=
  targets ←
    anchor_targets_bbox anchors annotations (num_classes self)
      (use_class_specific_bbox self) (positive_overlap self)
      (negative_overlap self);
  let '(cls_target, bbox_target, anchor_states) := targets in
  reg_target ←
    bbox_transform anchors bbox_target (regression_mean self)
      (regression_std self);
  Ok (cls_target, reg_target, anchor_states).

Definition forward (self : t) (annotations_batch : list Annotations)
    (anchors : list (list R))
  : result (list (list (list R)) * list (list (list R)) * list (list Z)) :=
  (* Create blobs to store anchor informations *)
  blobs ← map_result (per_image self anchors) annotations_batch;
  let cls_batch := (λ b : list (list R) * list (list R) * list Z, b.1.1) <$> blobs in
  let reg_batch := (λ b : list (list R) * list (list R) * list Z, b.1.2) <$> blobs in
  let states_batch := (λ b : list (list R) * list (list R) * list Z, b.2) <$> blobs in
  cls_batch ← stack shape2 cls_batch;
  reg_batch ← stack shape2 reg_batch;
  states_batch ← stack shape1 states_batch;
  Ok (cls_batch, reg_batch, states_batch).
End Functions.

End ComputeTargets.

(** ** One image through a stack of layers *)

(** Every layer acts on a batch image by image; these are the actions
    on one image. *)
Definition layer_image (l : layer) (img : list (list (list R)))
  : list (list (list R)) :=
  match l with
  | Conv c => Conv2d.forward_image c img
  | ReLU => (λ a : list (list R), (λ b : list R, relu <$> b) <$> a) <$> img
  | Sigmoid => (λ a : list (list R), (λ b : list R, sigmoid <$> b) <$> a) <$> img
  end.

Definition image_through (head : list layer) (img : list (list (list R)))
  : list (list (list R)) :=
  foldl (λ img l, layer_image l img) img head.

(** ** Anchor and ComputeAnchors *)

(** [generate_anchors_at_window] and [shift_anchors] are functions of
    [kindler/utils/anchors.py], which is not among the sources: the two
    modules below take them as parameters.  An anchor tensor has one row
    of four coordinates per anchor. *)

Module Anchor.

Record t : Type := Build {
  stride : R;
  anchors : list (list R)
}.

Section Functions.
Variable generate_anchors_at_window : R → list R → list R → list (list R).
Variable shift_anchors : list nat → R → list (list R) → list (list R).

Definition __init__ (ratios scales : list R) (size stride : R) : t :=
  {| stride := stride;
     anchors := generate_anchors_at_window size ratios scales |}.

Definition forward (self : t) (feature_shape : list nat) : list (list R) :=
  shift_anchors feature_shape (stride self) (anchors self).
End Functions.

End Anchor.

(** [shape[-2:]]: the last two dimensions (fewer if there are fewer). *)
Definition last_two (shape : list nat) : list nat :=
  drop (length shape - 2) shape.

Module ComputeAnchors.

(** [anchor] is the ModuleDict, keyed by [str(level)]. *)
Record t : Type := Build {
  anchor : gmap string Anchor.t
}.

(** [[2 ** (i / scales_per_octave) for i in range(scales_per_octave)]],
    with true division. *)
Definition octave_scales (scales_per_octave : nat) : list R :=
  (λ i, Rpower 2 (INR i / INR scales_per_octave)) <$> seq 0 scales_per_octave.

Section Functions.
Variable generate_anchors_at_window : R → list R → list R → list (list R).
Variable shift_anchors : list nat → R → list (list R) → list (list R).

(** [mult * (2 ** level)] for a float [mult] and an int [level].  A
    negative power of 2 is a float.  From [level = 1024] on the int
    [2 ** level] is too large to be converted to a float and the
    product raises OverflowError. *)
Definition times_pow2 (mult : R) (level : Z) : result R :=
  if decide (1024 ≤ level)%Z then Raise OverflowError
  else Ok (mult * powerRZ 2 level)%R.

(** The levels are ints ([Z]): the assertion of the loop holds. *)
Definition __init__ (feature_levels : list Z) (ratios : list R)
    (scales_per_octave : nat) (size_mult stride_mult : R) : result t :=
  let scales := octave_scales scales_per_octave in
  (* Generate the Anchor layers which would compute the anchors at each
     feature level *)
  anchor ←
    foldl (λ acc level,
             anchor ← acc;
             size ← times_pow2 size_mult level;
             stride ← times_pow2 stride_mult level;
             Ok (<[pretty level :=
                     Anchor.__init__ generate_anchors_at_window ratios scales
                       size stride]> (anchor : gmap string Anchor.t)))
      (Ok ∅) feature_levels;
  Ok {| anchor := anchor |}.

(** [features] stands for [features.items()]: the levels in iteration
    order, each with the shape of its feature tensor, which is all that
    forward reads of it.  A level that was not configured is a KeyError
    of the ModuleDict. *)
Definition forward (self : t) (features : list (Z * list nat))
  : result (gmap Z (list (list R))) :=
  foldl (λ acc item,
           anchors ← acc;
           layer ← match anchor self !! pretty item.1 with
                   | Some layer => Ok layer
                   | None => Raise KeyError
                   end;
           Ok (<[item.1 := Anchor.forward shift_anchors layer (last_two item.2)]>
                 anchors))
    (Ok ∅) features.
End Functions.

End ComputeAnchors.

(* ================================================================= *)
(** * Properties *)
(* ================================================================= *)

(** ** Boolean-mask indexing is filtering by state *)

Section Masks.
Context {A : Type}.
Variable f : Z → bool.
Variable P : Z → Prop.
Context `{∀ s, Decision (P s)}.
Hypothesis f_spec : ∀ s, f s = true ↔ P s.

Lemma select_row_filter (ss : list Z) (row : list A) :
  length ss = length row →
  select_row (f <$> ss) row = Ok (filter (λ p : Z * A, P p.1) (zip ss row)).*2.
Proof.
  revert row. induction ss as [|s ss IH]; intros [|x row] Hlen;
    simplify_eq/=; [done|].
  rewrite (IH row) by done. simpl.
  rewrite filter_cons. simpl. destruct (f s) eqn:Hs.
  - apply f_spec in Hs. by rewrite decide_True.
  - rewrite decide_False; [done|]. intros HP. apply f_spec in HP. congruence.
Qed.

Lemma select_row_length_ne (ss : list Z) (row : list A) :
  length ss ≠ length row → select_row (f <$> ss) row = Raise IndexError.
Proof.
  revert row. induction ss as [|s ss IH]; intros [|x row] Hlen;
    simplify_eq/=; try done.
  rewrite IH; [done|]. intros Heq. apply Hlen. by rewrite Heq.
Qed.

Lemma index_mask_filter (states : list (list Z)) (t : list (list A)) :
  same_shape states t →
  index_mask ((λ row : list Z, f <$> row) <$> states) t
  = Ok (anchors_where P states t).
Proof.
  unfold anchors_where. induction 1 as [|s r states t Hlen _ IH]; [done|].
  csimpl. rewrite select_row_filter by done. csimpl.
  rewrite IH. csimpl. f_equal.
  rewrite zip_with_app by done. by rewrite filter_app, fmap_app.
Qed.
End Masks.

Lemma concat_fmap_fmap {A B} (g : A → B) (t : list (list A)) :
  concat ((λ row : list A, g <$> row) <$> t) = g <$> concat t.
Proof.
  induction t as [|r t IH]; [done|]. csimpl. by rewrite IH, fmap_app.
Qed.

Lemma filter_zip_fmap_r {A B} (P : Z → Prop) `{∀ s, Decision (P s)}
    (g : A → B) (xs : list Z) (ys : list A) :
  (filter (λ p : Z * B, P p.1) (zip xs (g <$> ys))).*2
  = g <$> (filter (λ p : Z * A, P p.1) (zip xs ys)).*2.
Proof.
  revert ys. induction xs as [|x xs IH]; intros [|y ys]; try done.
  csimpl. rewrite !filter_cons. simpl.
  case_decide; csimpl; by rewrite IH.
Qed.

Lemma filter_zip_self (P : Z → Prop) `{∀ s, Decision (P s)} (xs : list Z) :
  (filter (λ p : Z * Z, P p.1) (zip xs xs)).*2 = filter P xs.
Proof.
  induction xs as [|x xs IH]; [done|].
  csimpl. rewrite !filter_cons. simpl.
  case_decide; csimpl; by rewrite IH.
Qed.

Lemma anchors_where_fmap {A B} (P : Z → Prop) `{∀ s, Decision (P s)}
    (g : A → B) (states : list (list Z)) (t : list (list A)) :
  anchors_where P states ((λ row : list A, g <$> row) <$> t)
  = g <$> anchors_where P states t.
Proof.
  unfold anchors_where. by rewrite concat_fmap_fmap, filter_zip_fmap_r.
Qed.

Lemma anchors_where_states {B} (P : Z → Prop) `{∀ s, Decision (P s)}
    (g : Z → B) (states : list (list Z)) :
  anchors_where P states ((λ row : list Z, g <$> row) <$> states)
  = g <$> filter P (concat states).
Proof.
  rewrite anchors_where_fmap. unfold anchors_where.
  by rewrite filter_zip_self.
Qed.

Lemma same_shape_fmap {A B} (g : A → B) (states : list (list Z)) (t : list (list A)) :
  same_shape states t →
  same_shape states ((λ row : list A, g <$> row) <$> t).
Proof.
  induction 1 as [|s r states t Hlen _ IH]; constructor; [|done].
  by rewrite length_fmap.
Qed.

Lemma same_shape_self {B} (g : Z → B) (states : list (list Z)) :
  same_shape states ((λ row : list Z, g <$> row) <$> states).
Proof.
  induction states as [|s states IH]; constructor; [|done].
  by rewrite length_fmap.
Qed.

Lemma index_mask_eq {A} (c : Z) (states : list (list Z)) (t : list (list A)) :
  same_shape states t →
  index_mask (eq_scalar states c) t = Ok (anchors_where (λ s, s = c) states t).
Proof.
  intros Hs. unfold eq_scalar.
  apply (index_mask_filter (λ s, Z.eqb s c) (λ s, s = c)); [|done].
  intros s. apply Z.eqb_eq.
Qed.

Lemma index_mask_ne {A} (c : Z) (states : list (list Z)) (t : list (list A)) :
  same_shape states t →
  index_mask (ne_scalar states c) t = Ok (anchors_where (λ s, s ≠ c) states t).
Proof.
  intros Hs. unfold ne_scalar.
  apply (index_mask_filter (λ s, negb (Z.eqb s c)) (λ s, s ≠ c)); [|done].
  intros s. rewrite negb_true_iff. apply Z.eqb_neq.
Qed.

Lemma last_channel_ok (t : list (list (list R))) :
  Forall (Forall (λ row, row ≠ [])) t →
  last_channel t
  = Ok ((λ img : list (list R), (λ row, default 0%R (last row)) <$> img) <$> t).
Proof.
  unfold last_channel. induction 1 as [|img t Himg _ IH]; [done|].
  csimpl. rewrite IH.
  assert (map_result index_last img
          = Ok ((λ row, default 0%R (last row)) <$> img)) as ->; [|done].
  clear IH. induction Himg as [|row img Hrow _ IH]; [done|].
  csimpl. rewrite IH. unfold index_last.
  destruct (last row) eqn:Hl; [done|]. by apply last_None in Hl.
Qed.

(** ** ComputeLosses.forward on well-shaped inputs *)

Lemma bg_target_fmap (l : list Z) :
  (λ s, (s =? 0)%Z) <$> l = (λ s, bool_decide (negative s)) <$> l.
Proof.
  apply list_fmap_ext. intros _ s _. unfold negative.
  destruct (Z.eqb_spec s 0); [by rewrite bool_decide_true|by rewrite bool_decide_false].
Qed.

Section Steps.
Import ComputeLosses.
Variable self : ComputeLosses.t.
Variables cls_output reg_output cls_target reg_target : list (list (list R)).
Variable anchor_states : list (list Z).

(** forward, step by step. *)
Lemma forward_steps_without_bg :
  use_bg_predictor self = false →
  forward self cls_output reg_output cls_target reg_target anchor_states
  = (co ← index_mask (ne_scalar anchor_states (-1)) cls_output;
     ct ← index_mask (ne_scalar anchor_states (-1)) cls_target;
     cl ← cls_loss_fn self (Mat co) (Mat ct);
     ro ← index_mask (ne_scalar anchor_states 1) reg_output;
     rt ← index_mask (ne_scalar anchor_states 1) reg_target;
     rg ← reg_loss_fn self (Mat ro) (Mat rt);
     Ok (losses_read None cl rg)).
Proof.
  intros Hbg. unfold forward, forward_tensors. rewrite Hbg.
  destruct (index_mask _ cls_output) as [co|]; csimpl; [|done].
  destruct (index_mask _ cls_target) as [ct|]; csimpl; [|done].
  destruct (cls_loss_fn self _ _) as [cl|]; csimpl; [|done].
  unfold dict_get. simplify_map_eq. csimpl.
  destruct (index_mask _ reg_output) as [ro|]; csimpl; [|done].
  destruct (index_mask _ reg_target) as [rt|]; csimpl; [|done].
  destruct (reg_loss_fn self _ _) as [rg|]; csimpl; [|done].
  simplify_map_eq. csimpl.
  rewrite !fmap_insert, fmap_empty. unfold iadd, new. cbn [value next].
  by rewrite !fn_lookup_insert, !fn_lookup_insert_ne, !fn_lookup_insert by done.
Qed.

Lemma forward_steps_with_bg :
  use_bg_predictor self = true →
  forward self cls_output reg_output cls_target reg_target anchor_states
  = (bo ← last_channel cls_output;
     bo ← index_mask (ne_scalar anchor_states (-1)) bo;
     bt ← index_mask (ne_scalar anchor_states (-1)) (eq_scalar anchor_states 0);
     co ← index_mask (eq_scalar anchor_states 1) (drop_last_channel cls_output);
     ct ← index_mask (eq_scalar anchor_states 1) cls_target;
     bg ← cls_loss_fn self (Vec bo) (BoolVec bt);
     cl ← cls_loss_fn self (Mat co) (Mat ct);
     ro ← index_mask (ne_scalar anchor_states 1) reg_output;
     rt ← index_mask (ne_scalar anchor_states 1) reg_target;
     rg ← reg_loss_fn self (Mat ro) (Mat rt);
     Ok (losses_read (Some bg) cl rg)).
Proof.
  intros Hbg. unfold forward, forward_tensors. rewrite Hbg.
  destruct (last_channel cls_output) as [bo|]; csimpl; [|done].
  destruct (index_mask _ bo) as [bo'|]; csimpl; [|done].
  destruct (index_mask _ (eq_scalar anchor_states 0)) as [bt|]; csimpl; [|done].
  destruct (index_mask _ (drop_last_channel cls_output)) as [co|]; csimpl; [|done].
  destruct (index_mask _ cls_target) as [ct|]; csimpl; [|done].
  destruct (cls_loss_fn self (Vec _) _) as [bg|]; csimpl; [|done].
  destruct (cls_loss_fn self (Mat _) _) as [cl|]; csimpl; [|done].
  unfold dict_get. simplify_map_eq. csimpl.
  destruct (index_mask _ reg_output) as [ro|]; csimpl; [|done].
  destruct (index_mask _ reg_target) as [rt|]; csimpl; [|done].
  destruct (reg_loss_fn self _ _) as [rg|]; csimpl; [|done].
  simplify_map_eq. csimpl.
  rewrite !fmap_insert, fmap_empty. unfold iadd, new. cbn [value next].
  by rewrite !fn_lookup_insert, !fn_lookup_insert_ne, !fn_lookup_insert by done.
Qed.
End Steps.

Section Forward.
Import ComputeLosses.
Variable self : ComputeLosses.t.
Variables cls_output reg_output cls_target reg_target : list (list (list R)).
Variable anchor_states : list (list Z).
Hypothesis cls_output_shape : same_shape anchor_states cls_output.
Hypothesis cls_target_shape : same_shape anchor_states cls_target.
Hypothesis reg_output_shape : same_shape anchor_states reg_output.
Hypothesis reg_target_shape : same_shape anchor_states reg_target.

Lemma forward_without_bg :
  use_bg_predictor self = false →
  forward self cls_output reg_output cls_target reg_target anchor_states
  = (cl ← cls_loss_value_no_bg self cls_output cls_target anchor_states;
     rg ← reg_loss_value self reg_output reg_target anchor_states;
     Ok (losses_read None cl rg)).
Proof.
  intros Hbg. rewrite forward_steps_without_bg by done.
  by rewrite !index_mask_ne by done.
Qed.

Lemma forward_with_bg :
  use_bg_predictor self = true →
  Forall (Forall (λ row, row ≠ [])) cls_output →
  forward self cls_output reg_output cls_target reg_target anchor_states
  = (bg ← bg_loss_value self cls_output anchor_states;
     cl ← cls_loss_value_bg self cls_output cls_target anchor_states;
     rg ← reg_loss_value self reg_output reg_target anchor_states;
     Ok (losses_read (Some bg) cl rg)).
Proof.
  intros Hbg Hrows. rewrite forward_steps_with_bg by done.
  rewrite last_channel_ok by done. csimpl.
  rewrite (index_mask_ne 1 _ reg_output), (index_mask_ne 1 _ reg_target) by done.
  rewrite (index_mask_eq 1 _ cls_target) by done.
  unfold drop_last_channel.
  rewrite (index_mask_eq 1) by (by apply same_shape_fmap).
  rewrite (index_mask_ne (-1) _ (_ <$> cls_output)) by (by apply same_shape_fmap).
  unfold eq_scalar.
  rewrite (index_mask_ne (-1)) by apply same_shape_self.
  csimpl.
  by rewrite anchors_where_states, !anchors_where_fmap, bg_target_fmap.
Qed.
End Forward.

(** Two batches that agree on every anchor whose state satisfies [P]
    have the same rows at those anchors. *)
Lemma anchors_where_agree {A} (P : Z → Prop) `{∀ s, Decision (P s)}
    (states : list (list Z)) (t t' : list (list A)) :
  Forall3 (Forall3 (λ s x y, P s → x = y)) states t t' →
  anchors_where P states t = anchors_where P states t'.
Proof.
  unfold anchors_where. induction 1 as [|s r r' states t t' Hrow _ IH]; [done|].
  assert (length s = length r ∧ length s = length r') as [Hl Hl'].
  { clear -Hrow. induction Hrow; simpl; [done|]. destruct IHHrow. by split; f_equal. }
  simpl. rewrite !zip_with_app, !filter_app, !fmap_app by done.
  f_equal; [|done].
  clear -Hrow. induction Hrow as [|a x y s r r' Hxy _ IH]; [done|].
  csimpl. rewrite !filter_cons. simpl.
  case_decide; csimpl; [|done]. by rewrite IH, Hxy.
Qed.

Lemma agree_same_shape {A} (P : Z → Prop) (states : list (list Z))
    (t t' : list (list A)) :
  Forall3 (Forall3 (λ s x y, P s → x = y)) states t t' →
  same_shape states t ∧ same_shape states t'.
Proof.
  induction 1 as [|s r r' states t t' Hrow _ [IH IH']]; [by split; constructor|].
  assert (length s = length r ∧ length s = length r') as [Hl Hl'].
  { clear -Hrow. induction Hrow; simpl; [done|]. destruct IHHrow. by split; f_equal. }
  split; by constructor.
Qed.

(** ** The smooth-L1 module on the rows of the examples *)

Lemma smooth_l1_zero (beta : R) : (0 < beta)%R → Modules.smooth_l1 beta 0 = 0%R.
Proof.
  intros Hb. unfold Modules.smooth_l1. rewrite Rabs_R0.
  destruct (Rlt_dec 0 beta); [|done]. field. lra.
Qed.

Lemma smooth_l1_one : Modules.smooth_l1 0.11 1 = 0.945%R.
Proof.
  unfold Modules.smooth_l1. rewrite Rabs_R1.
  destruct (Rlt_dec 1 0.11); lra.
Qed.

(** The smooth-L1 terms of the row [1; 0; 0; 0] against a zero target. *)
Lemma SmoothL1Loss_unit_row (size_average : bool) :
  Modules.SmoothL1Loss size_average 0.11
    (Mat [[1; 0; 0; 0]%R]) (Mat [[0; 0; 0; 0]%R])
  = Ok (if size_average then (0.945 / 4)%R else 0.945%R).
Proof.
  unfold Modules.SmoothL1Loss. simpl.
  replace (1 - 0)%R with 1%R by lra. replace (0 - 0)%R with 0%R by lra.
  rewrite smooth_l1_one, smooth_l1_zero by lra.
  f_equal. destruct size_average; lra.
Qed.

(** The sum of no term is 0. *)
Lemma SmoothL1Loss_no_row (beta : R) :
  Modules.SmoothL1Loss false beta (Mat []) (Mat []) = Ok 0%R.
Proof. reflexivity. Qed.

Lemma SmoothL1Loss_zero_entry (beta : R) :
  (0 < beta)%R →
  Modules.SmoothL1Loss false beta (Mat [[0%R]]) (Mat [[0%R]]) = Ok 0%R.
Proof.
  intros Hb. unfold Modules.SmoothL1Loss. simpl.
  replace (0 - 0)%R with 0%R by lra. rewrite smooth_l1_zero by done.
  f_equal. lra.
Qed.

(** ** Claims on ComputeLosses.forward *)

(** C5.  Without a background predictor, on well-shaped inputs on which
    the loss modules return, forward hands to the classification loss
    the rows of exactly the anchors that are not ignored, [cl] being
    its value; but the dict it returns holds under [cls_loss] the same
    tensor as under [total_loss], to which the regression loss [rg] was
    added in place: the caller reads [cl + rg], and [rg] is taken over
    all anchors that are not positive, the ignored ones among them. *)
Theorem cls_loss_shares_tensor_with_total_loss
    (self : ComputeLosses.t)
    (cls_output reg_output cls_target reg_target : list (list (list R)))
    (anchor_states : list (list Z)) (cl rg : R) :
  ComputeLosses.use_bg_predictor self = false →
  same_shape anchor_states cls_output →
  same_shape anchor_states cls_target →
  same_shape anchor_states reg_output →
  same_shape anchor_states reg_target →
  ComputeLosses.cls_loss_fn self
    (Mat (anchors_where (λ s, ¬ ignore s) anchor_states cls_output))
    (Mat (anchors_where (λ s, ¬ ignore s) anchor_states cls_target)) = Ok cl →
  ComputeLosses.reg_loss_fn self
    (Mat (anchors_where (λ s, ¬ positive s) anchor_states reg_output))
    (Mat (anchors_where (λ s, ¬ positive s) anchor_states reg_target)) = Ok rg →
  ∃ d,
    ComputeLosses.forward self cls_output reg_output cls_target reg_target
      anchor_states = Ok d
    ∧ d !! "cls_loss" = Some (cl + rg)%R
    ∧ d !! "total_loss" = Some (cl + rg)%R
    ∧ d !! "reg_loss" = Some rg
    ∧ d !! "bg_loss" = None.
Proof.
  intros Hbg H1 H2 H3 H4 Hcl Hrg.
  rewrite forward_without_bg by done.
  unfold cls_loss_value_no_bg, reg_loss_value. rewrite Hcl, Hrg. csimpl.
  eexists. split; [done|]. unfold losses_read. by simplify_map_eq.
Qed.

(** On a batch whose only anchor is ignored no row reaches the
    classification loss, which is 0, and yet forward reports 0.945
    under [cls_loss]: the smooth-L1 loss of the ignored anchor. *)
Lemma cls_loss_shares_tensor_with_total_loss_witness :
  let self := ComputeLosses.Build 1 false
                (Modules.SmoothL1Loss false 0.11)
                (Modules.SmoothL1Loss false 0.11) in
  ∃ d,
    ComputeLosses.forward self [[[0]]]%R [[[1; 0; 0; 0]]]%R [[[0]]]%R
      [[[0; 0; 0; 0]]]%R [[-1]]%Z = Ok d
    ∧ d !! "cls_loss" = Some (0 + 0.945)%R
    ∧ d !! "total_loss" = Some (0 + 0.945)%R
    ∧ d !! "reg_loss" = Some 0.945%R
    ∧ d !! "bg_loss" = None.
Proof.
  intros self.
  apply (cls_loss_shares_tensor_with_total_loss self [[[0]]]%R
           [[[1; 0; 0; 0]]]%R [[[0]]]%R [[[0; 0; 0; 0]]]%R [[-1]]%Z 0 0.945);
    [reflexivity | repeat constructor .. | |].
  - apply SmoothL1Loss_no_row.
  - apply (SmoothL1Loss_unit_row false).
Defined.

(** C4.  With a background predictor, on well-shaped inputs with at
    least one channel, forward calls the classification loss twice:
    on the last channel of exactly the anchors that are not ignored,
    against the bool tensor that is true iff the anchor is negative;
    and on the channels without the last one of exactly the positive
    anchors, against their target rows.  When the loss modules return
    on these arguments, forward returns, and reports the two values as
    [bg_loss] and [cls_loss] and a total whose classification part is
    their sum. *)
Theorem forward_bg_predictor_losses
    (self : ComputeLosses.t)
    (cls_output reg_output cls_target reg_target : list (list (list R)))
    (anchor_states : list (list Z)) (bg cl rg : R) :
  ComputeLosses.use_bg_predictor self = true →
  same_shape anchor_states cls_output →
  same_shape anchor_states cls_target →
  same_shape anchor_states reg_output →
  same_shape anchor_states reg_target →
  Forall (Forall (λ row, row ≠ [])) cls_output →
  ComputeLosses.cls_loss_fn self
    (Vec ((λ row, default 0%R (last row))
            <$> anchors_where (λ s, ¬ ignore s) anchor_states cls_output))
    (BoolVec ((λ s, bool_decide (s = 0%Z))
                <$> filter (λ s, ¬ ignore s) (concat anchor_states))) = Ok bg →
  ComputeLosses.cls_loss_fn self
    (Mat ((λ row : list R, removelast row)
            <$> anchors_where positive anchor_states cls_output))
    (Mat (anchors_where positive anchor_states cls_target)) = Ok cl →
  ComputeLosses.reg_loss_fn self
    (Mat (anchors_where (λ s, ¬ positive s) anchor_states reg_output))
    (Mat (anchors_where (λ s, ¬ positive s) anchor_states reg_target)) = Ok rg →
  ∃ d,
    ComputeLosses.forward self cls_output reg_output cls_target reg_target
      anchor_states = Ok d
    ∧ d !! "bg_loss" = Some bg
    ∧ d !! "cls_loss" = Some cl
    ∧ d !! "reg_loss" = Some rg
    ∧ d !! "total_loss" = Some (bg + cl + rg)%R.
Proof.
  intros Hbg H1 H2 H3 H4 Hrows Hb Hc Hr.
  rewrite forward_with_bg by done.
  unfold bg_loss_value, cls_loss_value_bg, reg_loss_value.
  change (λ s, bool_decide (negative s)) with (λ s, bool_decide (s = 0%Z)).
  rewrite Hb, Hc, Hr. csimpl.
  eexists. split; [done|]. unfold losses_read. by simplify_map_eq.
Qed.

(** A classification loss that takes a bool target: the number of
    entries of its target, the true ones counted twice. *)
Lemma forward_bg_predictor_losses_witness :
  let count : loss_fn := λ input target,
    match target with
    | BoolVec b => Ok (INR (length b + length (filter (λ x, x = true) b)))
    | Mat m => Ok (INR (length m))
    | Vec v => Ok (INR (length v))
    end in
  let self := ComputeLosses.Build 1 true count count in
  let cls_output := [[[1; 0; 0]; [0; 1; 1]; [1; 1; 0]]]%R in
  let cls_target := [[[1; 0]; [0; 0]; [0; 0]]]%R in
  let reg_output := [[[1; 0; 0; 0]; [0; 1; 0; 0]; [0; 0; 1; 0]]]%R in
  let reg_target := [[[1; 0; 0; 0]; [0; 0; 0; 0]; [0; 0; 0; 0]]]%R in
  let anchor_states := [[1; 0; -1]]%Z in
  ∃ d,
    ComputeLosses.forward self cls_output reg_output cls_target reg_target
      anchor_states = Ok d
    ∧ d !! "bg_loss" = Some (INR 3)
    ∧ d !! "cls_loss" = Some (INR 1)
    ∧ d !! "reg_loss" = Some (INR 2)
    ∧ d !! "total_loss" = Some (INR 3 + INR 1 + INR 2)%R.
Proof.
  intros count self cls_output cls_target reg_output reg_target anchor_states.
  apply (forward_bg_predictor_losses self cls_output reg_output cls_target
           reg_target anchor_states (INR 3) (INR 1) (INR 2));
    [reflexivity | repeat constructor; discriminate .. | | |];
    reflexivity.
Defined.

(** ** The regression branch as coded *)

(** The regression weight is stored and never read. *)
Lemma forward_reg_weight_unused (w w' : R) (bg : bool) (c r : loss_fn)
    (cls_output reg_output cls_target reg_target : list (list (list R)))
    (anchor_states : list (list Z)) :
  ComputeLosses.forward (ComputeLosses.Build w bg c r)
    cls_output reg_output cls_target reg_target anchor_states
  = ComputeLosses.forward (ComputeLosses.Build w' bg c r)
      cls_output reg_output cls_target reg_target anchor_states.
Proof. reflexivity. Qed.

(** C1.  On a batch of one positive and one negative anchor, whatever
    the loss modules and whatever the rows, forward calls the
    smooth-L1 module on the row of the negative anchor alone ([n]
    against [m]) and reports its value as regression loss: the
    prediction [p] and the target [q] of the positive anchor do not
    enter it.  ([cl] and [rg] are the values the two loss modules
    return.) *)
Theorem reg_loss_taken_over_non_positive_anchors
    (FocalLoss : R → R → loss_fn) (BCELoss : loss_fn)
    (SmoothL1Loss : R → loss_fn) (use_focal_loss : bool)
    (focal_alpha focal_gamma reg_weight reg_beta : R)
    (c1 c2 t1 t2 p q n m : list R) (cl rg : R) :
  (if use_focal_loss then FocalLoss focal_alpha focal_gamma else BCELoss)
    (Mat [c1; c2]) (Mat [t1; t2]) = Ok cl →
  SmoothL1Loss reg_beta (Mat [n]) (Mat [m]) = Ok rg →
  ∃ d,
    ComputeLosses.forward
      (ComputeLosses.__init__ FocalLoss BCELoss SmoothL1Loss use_focal_loss
         focal_alpha focal_gamma reg_weight reg_beta false)
      [[c1; c2]] [[p; n]] [[t1; t2]] [[q; m]] [[1; 0]]%Z = Ok d
    ∧ d !! "reg_loss" = Some rg.
Proof.
  intros Hcl Hrg.
  rewrite forward_without_bg by first [done | repeat constructor].
  unfold cls_loss_value_no_bg, reg_loss_value.
  change (ComputeLosses.cls_loss_fn _ _ _)
    with ((if use_focal_loss then FocalLoss focal_alpha focal_gamma else BCELoss)
            (Mat [c1; c2]) (Mat [t1; t2])).
  change (ComputeLosses.reg_loss_fn _ _ _)
    with (SmoothL1Loss reg_beta (Mat [n]) (Mat [m])).
  rewrite Hcl, Hrg. csimpl.
  eexists. split; [done|]. unfold losses_read. by simplify_map_eq.
Qed.

(** The positive anchor predicts its target exactly and the negative
    one is off by one: the regression loss is that of the negative
    anchor. *)
Lemma reg_loss_taken_over_non_positive_anchors_witness :
  ∃ d,
    ComputeLosses.forward
      (ComputeLosses.__init__ (λ _ _, Modules.SmoothL1Loss false 0.11)
         (Modules.SmoothL1Loss false 0.11) (Modules.SmoothL1Loss false)
         true 0.25 2 1 0.11 false)
      [[[1]; [0]]]%R [[[0; 0; 0; 0]; [1; 0; 0; 0]]]%R [[[1]; [0]]]%R
      [[[0; 0; 0; 0]; [0; 0; 0; 0]]]%R [[1; 0]]%Z = Ok d
    ∧ d !! "reg_loss" = Some 0.945%R.
Proof.
  apply (reg_loss_taken_over_non_positive_anchors
           (λ _ _, Modules.SmoothL1Loss false 0.11)
           (Modules.SmoothL1Loss false 0.11) (Modules.SmoothL1Loss false)
           true 0.25 2 1 0.11 [1%R] [0%R] [1%R] [0%R] [0; 0; 0; 0]%R
           [0; 0; 0; 0]%R [1; 0; 0; 0]%R [0; 0; 0; 0]%R
           (Modules.smooth_l1 0.11 (1 - 1)
            + (Modules.smooth_l1 0.11 (0 - 0) + 0)) 0.945).
  - reflexivity.
  - apply (SmoothL1Loss_unit_row false).
Defined.

Section RegressionBranch.
Variable FocalLoss : R → R → loss_fn.
Variable BCELoss : loss_fn.
Variable size_average use_focal_loss : bool.
Variables focal_alpha focal_gamma : R.

(** The module as constructed with the default [reg_beta] and no
    background predictor. *)
Let losses (reg_weight : R) : ComputeLosses.t :=
  ComputeLosses.__init__ FocalLoss BCELoss (Modules.SmoothL1Loss size_average)
    use_focal_loss focal_alpha focal_gamma reg_weight 0.11 false.

Lemma forward_one_negative_anchor (reg_weight cl : R) :
  ComputeLosses.cls_loss_fn (losses reg_weight) (Mat [[0%R]]) (Mat [[0%R]])
  = Ok cl →
  let rg := if size_average then (0.945 / 4)%R else 0.945%R in
  ComputeLosses.forward (losses reg_weight)
    [[[0]]]%R [[[1; 0; 0; 0]]]%R [[[0]]]%R [[[0; 0; 0; 0]]]%R [[0]]%Z
  = Ok (losses_read None cl rg).
Proof.
  intros Hcl rg.
  rewrite forward_without_bg by first [done | repeat constructor].
  unfold cls_loss_value_no_bg, reg_loss_value.
  change (ComputeLosses.cls_loss_fn (losses reg_weight) _ _)
    with (ComputeLosses.cls_loss_fn (losses reg_weight)
            (Mat [[0%R]]) (Mat [[0%R]])).
  change (ComputeLosses.reg_loss_fn (losses reg_weight) _ _)
    with (Modules.SmoothL1Loss size_average 0.11
            (Mat [[1; 0; 0; 0]%R]) (Mat [[0; 0; 0; 0]%R])).
  by rewrite Hcl, SmoothL1Loss_unit_row.
Qed.

(** C2.  On a batch with no positive anchor the regression loss is the
    smooth-L1 loss of all the rows, which is not zero when a
    prediction differs from its target.  ([cl] is the value the
    classification loss returns.) *)
Theorem reg_loss_nonzero_without_positive_anchor (cl : R) :
  ComputeLosses.cls_loss_fn (losses 1) (Mat [[0%R]]) (Mat [[0%R]]) = Ok cl →
  ∃ d v,
    ComputeLosses.forward (losses 1)
      [[[0]]]%R [[[1; 0; 0; 0]]]%R [[[0]]]%R [[[0; 0; 0; 0]]]%R
      [[0]]%Z = Ok d
    ∧ d !! "reg_loss" = Some v
    ∧ v = (if size_average then (0.945 / 4)%R else 0.945%R)
    ∧ v ≠ 0%R.
Proof.
  intros Hcl. rewrite (forward_one_negative_anchor 1 cl Hcl). cbv zeta.
  unfold losses_read.
  eexists _, _. split; [done|]. simplify_map_eq. split; [done|].
  split; [done|]. destruct size_average; lra.
Qed.

(** C3.  Whatever [reg_weight] the module was built with, the total is
    the classification loss plus the regression loss taken once; it is
    not the weighted sum unless the weight is 1.  ([cl] is the value
    the classification loss returns.) *)
Theorem total_loss_adds_unweighted_reg_loss (reg_weight cl : R) :
  ComputeLosses.cls_loss_fn (losses reg_weight) (Mat [[0%R]]) (Mat [[0%R]])
  = Ok cl →
  ∃ d rg,
    ComputeLosses.forward (losses reg_weight)
      [[[0]]]%R [[[1; 0; 0; 0]]]%R [[[0]]]%R [[[0; 0; 0; 0]]]%R
      [[0]]%Z = Ok d
    ∧ ComputeLosses.reg_weight (losses reg_weight) = reg_weight
    ∧ d !! "reg_loss" = Some rg
    ∧ rg = (if size_average then (0.945 / 4)%R else 0.945%R)
    ∧ d !! "total_loss" = Some (cl + rg)%R
    ∧ (reg_weight ≠ 1%R → (cl + rg)%R ≠ (cl + reg_weight * rg)%R).
Proof.
  intros Hcl. rewrite (forward_one_negative_anchor reg_weight cl Hcl). cbv zeta.
  unfold losses_read.
  eexists _, _. split; [done|]. split; [done|]. simplify_map_eq.
  do 3 (split; [done|]). intros Hw Heq. apply Hw.
  destruct size_average; nra.
Qed.
End RegressionBranch.

Lemma reg_loss_nonzero_without_positive_anchor_witness :
  ∃ d v,
    ComputeLosses.forward
      (ComputeLosses.__init__ (λ _ _, Modules.SmoothL1Loss false 0.11)
         (Modules.SmoothL1Loss false 0.11) (Modules.SmoothL1Loss false)
         true 0.25 2 1 0.11 false)
      [[[0]]]%R [[[1; 0; 0; 0]]]%R [[[0]]]%R [[[0; 0; 0; 0]]]%R
      [[0]]%Z = Ok d
    ∧ d !! "reg_loss" = Some v
    ∧ v = (if false then (0.945 / 4)%R else 0.945%R)
    ∧ v ≠ 0%R.
Proof.
  apply (reg_loss_nonzero_without_positive_anchor
           (λ _ _, Modules.SmoothL1Loss false 0.11)
           (Modules.SmoothL1Loss false 0.11) false true 0.25 2 0).
  apply SmoothL1Loss_zero_entry. lra.
Defined.

Lemma total_loss_adds_unweighted_reg_loss_witness :
  ∃ d rg,
    ComputeLosses.forward
      (ComputeLosses.__init__ (λ _ _, Modules.SmoothL1Loss false 0.11)
         (Modules.SmoothL1Loss false 0.11) (Modules.SmoothL1Loss false)
         true 0.25 2 2 0.11 false)
      [[[0]]]%R [[[1; 0; 0; 0]]]%R [[[0]]]%R [[[0; 0; 0; 0]]]%R
      [[0]]%Z = Ok d
    ∧ ComputeLosses.reg_weight
        (ComputeLosses.__init__ (λ _ _, Modules.SmoothL1Loss false 0.11)
           (Modules.SmoothL1Loss false 0.11) (Modules.SmoothL1Loss false)
           true 0.25 2 2 0.11 false) = 2%R
    ∧ d !! "reg_loss" = Some rg
    ∧ rg = (if false then (0.945 / 4)%R else 0.945%R)
    ∧ d !! "total_loss" = Some (0 + rg)%R
    ∧ (2%R ≠ 1%R → (0 + rg)%R ≠ (0 + 2 * rg)%R).
Proof.
  apply (total_loss_adds_unweighted_reg_loss
           (λ _ _, Modules.SmoothL1Loss false 0.11)
           (Modules.SmoothL1Loss false 0.11) false true 0.25 2 2 0).
  apply SmoothL1Loss_zero_entry. lra.
Defined.

(** ** Rows cut from a flat tensor *)

Lemma chunks_lookup (n k : nat) (l : list R) (i : nat) :
  i < k → chunks n k l !! i = Some (take n (drop (i * n) l)).
Proof.
  revert l i. induction k as [|k IH]; intros l i Hi; [lia|].
  destruct i as [|i]; simpl; [done|].
  rewrite IH by lia. by rewrite drop_drop.
Qed.

Lemma chunks_length (n k : nat) (l : list R) : length (chunks n k l) = k.
Proof. revert l. induction k as [|k IH]; intros l; simpl; [done|]. by rewrite IH. Qed.

Lemma chunks_Forall (P : R → Prop) (n k : nat) (l : list R) :
  Forall P l → Forall (Forall P) (chunks n k l).
Proof.
  revert l. induction k as [|k IH]; intros l Hl; simpl; constructor.
  - by apply Forall_take.
  - apply IH. by apply Forall_drop.
Qed.

Lemma chunks_entry (n k : nat) (l : list R) (i j : nat) :
  i < k → j < n →
  (row ← chunks n k l !! i; row !! j) = l !! (i * n + j).
Proof.
  intros Hi Hj. rewrite chunks_lookup by done. simpl.
  by rewrite lookup_take_lt, lookup_drop.
Qed.

Section Uniform.
Context {A : Type}.

Lemma concat_uniform_length (n : nat) (ls : list (list A)) :
  Forall (λ r, length r = n) ls → length (concat ls) = length ls * n.
Proof.
  induction 1 as [|r ls Hr _ IH]; [done|].
  simpl. rewrite length_app. lia.
Qed.

Lemma concat_uniform_lookup (n : nat) (ls : list (list A)) (i j : nat) :
  Forall (λ r, length r = n) ls → j < n →
  concat ls !! (i * n + j) = (r ← ls !! i; r !! j).
Proof.
  intros Hls Hj. revert i. induction Hls as [|r ls Hr _ IH]; intros i; [done|].
  simpl. destruct i as [|i]; simpl.
  - rewrite lookup_app_l by lia. done.
  - rewrite lookup_app_r by lia. rewrite <- (IH i). f_equal. lia.
Qed.
End Uniform.

Lemma Forall_concat_2 {A} (P : A → Prop) (ls : list (list A)) :
  Forall (Forall P) ls → Forall P (concat ls).
Proof. induction 1; simpl; [done|]. by apply Forall_app_2. Qed.

(** ** Channel-last order *)

Section Permute.
Variable img : list (list (list R)).

Lemma permute_image_rows :
  Forall (λ r, length r = width img) (permute_image img).
Proof.
  unfold permute_image. apply Forall_fmap, Forall_forall. intros i _. simpl.
  by rewrite length_fmap, length_seq.
Qed.

Lemma permute_image_cells :
  Forall (λ cell, length cell = length img) (concat (permute_image img)).
Proof.
  apply Forall_concat_2. unfold permute_image.
  apply Forall_fmap, Forall_forall. intros i _. simpl.
  apply Forall_fmap, Forall_forall. intros j _. simpl.
  by rewrite length_fmap.
Qed.

Lemma permute_image_length : length (permute_image img) = height img.
Proof. unfold permute_image. by rewrite length_fmap, length_seq. Qed.

Lemma permute_image_flat_length :
  length (concat (concat (permute_image img)))
  = height img * width img * length img.
Proof.
  rewrite (concat_uniform_length (length img)) by apply permute_image_cells.
  rewrite (concat_uniform_length (width img)) by apply permute_image_rows.
  by rewrite permute_image_length.
Qed.

Lemma permute_image_flat_lookup (i j c : nat) :
  i < height img → j < width img → c < length img →
  concat (concat (permute_image img)) !! ((i * width img + j) * length img + c)
  = Some (pixel img c i j).
Proof.
  intros Hi Hj Hc.
  rewrite (concat_uniform_lookup (length img)) by (apply permute_image_cells || done).
  rewrite (concat_uniform_lookup (width img)) by (apply permute_image_rows || done).
  unfold permute_image. rewrite list_lookup_fmap, lookup_seq_lt by done. simpl.
  rewrite list_lookup_fmap, lookup_seq_lt by done. simpl.
  rewrite list_lookup_fmap. unfold pixel.
  destruct (lookup_lt_is_Some_2 img c Hc) as [ch ->]. done.
Qed.

(** The entry (a, k) of the cell (i, j): row [(i * W + j) * A + a] and
    column [k] of the reshaped image is channel [a * n + k] at (i, j). *)
Lemma anchor_rows_entry (n A i j a k : nat) :
  length img = A * n →
  i < height img → j < width img → a < A → k < n →
  let flat := concat (concat (permute_image img)) in
  (row ← chunks n (length flat / n) flat !! ((i * width img + j) * A + a);
   row !! k)
  = Some (pixel img (a * n + k) i j).
Proof.
  intros Hlen Hi Hj Ha Hk flat.
  assert (length flat / n = height img * width img * A) as ->.
  { unfold flat. rewrite permute_image_flat_length, Hlen.
    replace (height img * width img * (A * n))
      with (height img * width img * A * n) by lia.
    apply Nat.div_mul. lia. }
  assert (i * width img + j + 1 ≤ height img * width img) as Hcell by nia.
  assert ((i * width img + j + 1) * A ≤ height img * width img * A) as Hrow
    by (by apply Nat.mul_le_mono_r).
  rewrite chunks_entry by (done || lia).
  replace (((i * width img + j) * A + a) * n + k)
    with ((i * width img + j) * length img + (a * n + k)) by (rewrite Hlen; lia).
  apply permute_image_flat_lookup; [done..|]. rewrite Hlen.
  assert ((a + 1) * n ≤ A * n) by (apply Nat.mul_le_mono_r; lia). lia.
Qed.
End Permute.

(** ** Convolutions *)

Lemma forward_image_length (c : Conv2d.t) (img : list (list (list R))) :
  length (Conv2d.forward_image c img)
  = min (length (Conv2d.weight c)) (length (Conv2d.bias c)).
Proof. unfold Conv2d.forward_image. apply length_zip_with. Qed.

Lemma forward_image_rect (c : Conv2d.t) (img : list (list (list R))) :
  rect (Conv2d.out_size c (height img)) (Conv2d.out_size c (width img))
    (Conv2d.forward_image c img).
Proof.
  unfold rect, Conv2d.forward_image. apply Forall_lookup. intros o ch Hch.
  apply lookup_zip_with_Some in Hch as (w_o & b_o & -> & _ & _).
  split.
  - by rewrite length_fmap, length_seq.
  - apply Forall_fmap, Forall_forall. intros i _. simpl.
    by rewrite length_fmap, length_seq.
Qed.

Lemma rect_lookup (H W : nat) (img : list (list (list R))) (c : nat)
    (ch : list (list R)) :
  rect H W img → img !! c = Some ch →
  length ch = H ∧ (0 < H → length (default [] (head ch)) = W).
Proof.
  intros Hrect Hc. destruct (Forall_lookup_1 _ _ _ _ Hrect Hc) as [Hlen Hrows].
  split; [done|]. intros HH. destruct ch as [|row ch]; simpl in *; [lia|].
  by inversion Hrows.
Qed.

Lemma rect_height (H W : nat) (img : list (list (list R))) :
  rect H W img → img ≠ [] → height img = H.
Proof.
  intros Hrect Hne. destruct img as [|ch img]; [done|].
  by destruct (rect_lookup H W (ch :: img) 0 ch Hrect eq_refl).
Qed.

Lemma rect_width (H W : nat) (img : list (list (list R))) :
  rect H W img → img ≠ [] → 0 < H → width img = W.
Proof.
  intros Hrect Hne HH. destruct img as [|ch img]; [done|].
  destruct (rect_lookup H W (ch :: img) 0 ch Hrect eq_refl) as [_ Hw].
  by apply Hw.
Qed.

Lemma rect_drop (H W n : nat) (img : list (list (list R))) :
  rect H W img → rect H W (drop n img).
Proof. apply Forall_drop. Qed.

Lemma rect_take (H W n : nat) (img : list (list (list R))) :
  rect H W img → rect H W (take n img).
Proof. apply Forall_take. Qed.

Lemma pixel_take (n : nat) (img : list (list (list R))) (c y x : nat) :
  c < n → pixel (take n img) c y x = pixel img c y x.
Proof. intros Hc. unfold pixel. by rewrite lookup_take_lt. Qed.

Lemma pixel_drop (n : nat) (img : list (list (list R))) (c y x : nat) :
  pixel (drop n img) c y x = pixel img (n + c) y x.
Proof. unfold pixel. by rewrite lookup_drop. Qed.

Lemma rect_zero (W W' : nat) (img : list (list (list R))) :
  rect 0 W img → rect 0 W' img.
Proof.
  unfold rect. intros Hr. eapply Forall_impl; [exact Hr|].
  intros ch [Hlen _]. split; [done|].
  destruct ch; [constructor|done].
Qed.

(** A convolution that keeps the spatial size (3x3 with padding 1, 1x1
    with padding 0) maps [H] by [W] channels to [H] by [W] channels. *)
Lemma forward_image_same_size (c : Conv2d.t) (H W : nat)
    (img : list (list (list R))) :
  (∀ n, Conv2d.out_size c n = n) → img ≠ [] → rect H W img →
  rect H W (Conv2d.forward_image c img).
Proof.
  intros Hsize Hne Hrect. pose proof (forward_image_rect c img) as Hout.
  rewrite !Hsize, (rect_height H W) in Hout by done.
  destruct H as [|H]; [by eapply rect_zero|].
  by rewrite (rect_width (S H) W) in Hout by (done || lia).
Qed.

Lemma Conv2d_init_lengths (rng : initializer) (layer cin cout k pad : nat) :
  length (Conv2d.weight (Conv2d.__init__ rng layer cin cout k pad)) = cout
  ∧ length (Conv2d.bias (Conv2d.__init__ rng layer cin cout k pad)) = cout.
Proof. simpl. by rewrite !length_fmap, !length_seq. Qed.

Lemma forward_image_shape (c : Conv2d.t) (C H W : nat)
    (img : list (list (list R))) :
  length (Conv2d.weight c) = C → length (Conv2d.bias c) = C →
  (∀ n, Conv2d.out_size c n = n) → img ≠ [] → rect H W img →
  length (Conv2d.forward_image c img) = C
  ∧ rect H W (Conv2d.forward_image c img).
Proof.
  intros Hw Hb Hsize Hne Hrect. split.
  - rewrite forward_image_length, Hw, Hb. lia.
  - by apply forward_image_same_size.
Qed.

(** A convolution with a zero kernel returns its bias everywhere. *)
Lemma sum_R_zero (l : list R) : Forall (λ v, v = 0%R) l → sum_R l = 0%R.
Proof. induction 1 as [|v l -> _ IH]; simpl; [done|]. rewrite IH. lra. Qed.

Lemma at_position_zero_kernel (c : Conv2d.t) (img w_o : list (list (list R)))
    (b_o : R) (i j : nat) :
  Forall (Forall (Forall (λ v, v = 0%R))) w_o →
  Conv2d.at_position c img w_o b_o i j = b_o.
Proof.
  intros Hw. unfold Conv2d.at_position.
  rewrite sum_R_zero; [lra|].
  apply Forall_lookup. intros ci v Hv.
  apply list_lookup_imap_Some in Hv as (w_oc & Hoc & ->).
  apply sum_R_zero, Forall_lookup. intros di v Hv.
  apply list_lookup_imap_Some in Hv as (w_row & Hrow & ->).
  apply sum_R_zero, Forall_lookup. intros dj v Hv.
  apply list_lookup_imap_Some in Hv as (w & Hw' & ->).
  pose proof (Forall_lookup_1 _ _ _ _ Hw Hoc) as H1.
  pose proof (Forall_lookup_1 _ _ _ _ H1 Hrow) as H2.
  pose proof (Forall_lookup_1 _ _ _ _ H2 Hw') as ->. lra.
Qed.

Lemma fill4_zero (w : list (list (list (list R)))) :
  Forall (Forall (Forall (Forall (λ v, v = 0%R)))) (fill4 0 w).
Proof.
  unfold fill4.
  apply Forall_fmap, Forall_forall; intros a _; simpl.
  apply Forall_fmap, Forall_forall; intros b _; simpl.
  apply Forall_fmap, Forall_forall; intros c _; simpl.
  apply Forall_fmap, Forall_forall; intros d _; simpl. done.
Qed.

Lemma fill1_const (v : R) (b : list R) : Forall (λ u, u = v) (fill1 v b).
Proof. unfold fill1. apply Forall_fmap, Forall_forall. by intros. Qed.

Lemma forward_image_constant (c : Conv2d.t) (img : list (list (list R))) (v : R) :
  Forall (Forall (Forall (Forall (λ u, u = 0%R)))) (Conv2d.weight c) →
  Forall (λ u, u = v) (Conv2d.bias c) →
  Forall (Forall (Forall (λ u, u = v))) (Conv2d.forward_image c img).
Proof.
  intros Hw Hb. unfold Conv2d.forward_image. apply Forall_lookup. intros o ch Hch.
  apply lookup_zip_with_Some in Hch as (w_o & b_o & -> & Hwo & Hbo).
  apply Forall_fmap, Forall_forall; intros i _; simpl.
  apply Forall_fmap, Forall_forall; intros j _; simpl.
  rewrite at_position_zero_kernel by (by eapply Forall_lookup_1).
  by eapply (Forall_lookup_1 _ _ _ _ Hb).
Qed.

Lemma prior_bias_ok (p : R) :
  (0 < p < 1)%R → prior_bias p = Ok (- ln ((1 - p) / p))%R.
Proof.
  intros [H0 H1]. unfold prior_bias.
  destruct (Req_dec_T p 0); [lra|].
  destruct (Rle_dec ((1 - p) / p) 0) as [Hle|]; [|done].
  assert (0 < (1 - p) / p)%R by (apply Rdiv_lt_0_compat; lra). lra.
Qed.

Lemma rect_map (f : R → R) (H W : nat) (img : list (list (list R))) :
  rect H W img →
  rect H W ((λ a : list (list R), (λ b : list R, f <$> b) <$> a) <$> img).
Proof.
  unfold rect. intros Hrect. apply Forall_fmap.
  eapply Forall_impl; [exact Hrect|]. intros ch [Hlen Hrows]. simpl. split.
  - by rewrite length_fmap.
  - apply Forall_fmap. eapply Forall_impl; [exact Hrows|].
    intros row Hrow. simpl. by rewrite length_fmap.
Qed.

Lemma permute_image_constant (v : R) (H W : nat) (img : list (list (list R))) :
  rect H W img →
  Forall (Forall (Forall (λ u, u = v))) img →
  Forall (Forall (Forall (λ u, u = v))) (permute_image img).
Proof.
  intros Hrect Hconst. unfold permute_image.
  apply Forall_fmap, Forall_forall; intros i Hi; simpl.
  apply Forall_fmap, Forall_forall; intros j Hj; simpl.
  apply Forall_fmap, Forall_lookup; intros c ch Hch; simpl.
  apply elem_of_seq in Hi. apply elem_of_seq in Hj.
  assert (img ≠ []) as Hne by (by intros ->).
  rewrite (rect_height H W) in Hi by done.
  rewrite (rect_width H W) in Hj by (done || lia).
  destruct (Forall_lookup_1 _ _ _ _ Hrect Hch) as [Hlen Hrows].
  destruct (lookup_lt_is_Some_2 ch i) as [row Hrow]; [lia|].
  pose proof (Forall_lookup_1 _ _ _ _ Hrows Hrow) as Hw. simpl in Hw.
  destruct (lookup_lt_is_Some_2 row j) as [u Hu]; [lia|].
  rewrite Hrow. simpl. rewrite Hu. simpl.
  pose proof (Forall_lookup_1 _ _ _ _ Hconst Hch) as H1.
  pose proof (Forall_lookup_1 _ _ _ _ H1 Hrow) as H2.
  exact (Forall_lookup_1 _ _ _ _ H2 Hu).
Qed.

Lemma to_anchor_rows_constant (v : R) (n : nat)
    (x : list (list (list (list R)))) :
  Forall (λ img, ∃ H W, rect H W img) x →
  Forall (Forall (Forall (Forall (λ u, u = v)))) x →
  Forall (Forall (Forall (λ u, u = v))) (to_anchor_rows n x).
Proof.
  intros Hrect Hconst. unfold to_anchor_rows.
  apply Forall_fmap, Forall_lookup. intros b img Himg. simpl.
  destruct (Forall_lookup_1 _ _ _ _ Hrect Himg) as (H & W & HHW).
  apply chunks_Forall. do 2 apply Forall_concat_2.
  apply (permute_image_constant v H W); [done|].
  exact (Forall_lookup_1 _ _ _ _ Hconst Himg).
Qed.

Lemma snoc2_lookup {A} (l : list A) (a b : A) :
  ((l ++ [a]) ++ [b]) !! (length ((l ++ [a]) ++ [b]) - 2) = Some a.
Proof.
  rewrite !length_app. simpl.
  replace (length l + 1 + 1 - 2) with (length l) by lia.
  rewrite lookup_app_l by (rewrite length_app; simpl; lia).
  by rewrite list_lookup_middle.
Qed.

Lemma snoc2_insert {A} (l : list A) (a a' b : A) :
  <[length ((l ++ [a]) ++ [b]) - 2 := a']> ((l ++ [a]) ++ [b])
  = (l ++ [a']) ++ [b].
Proof.
  rewrite !length_app. simpl.
  replace (length l + 1 + 1 - 2) with (length l) by lia.
  rewrite insert_app_l by (rewrite length_app; simpl; lia). f_equal.
  replace (length l) with (length l + 0) at 1 by lia.
  by rewrite insert_app_r.
Qed.

Lemma snoc1_lookup {A} (l : list A) (a : A) :
  (l ++ [a]) !! (length (l ++ [a]) - 1) = Some a.
Proof.
  rewrite length_app. simpl. replace (length l + 1 - 1) with (length l) by lia.
  by rewrite list_lookup_middle.
Qed.

Lemma snoc1_insert {A} (l : list A) (a a' : A) :
  <[length (l ++ [a]) - 1 := a']> (l ++ [a]) = l ++ [a'].
Proof.
  rewrite length_app. simpl.
  replace (length l + 1 - 1) with (length l + 0) by lia.
  by rewrite insert_app_r.
Qed.

Lemma to_anchor_rows_entry (n A : nat) (x : list (list (list (list R))))
    (b : nat) (img : list (list (list R))) (i j a k : nat) :
  x !! b = Some img → length img = A * n →
  i < height img → j < width img → a < A → k < n →
  entry (to_anchor_rows n x) b ((i * width img + j) * A + a) k
  = Some (pixel img (a * n + k) i j).
Proof.
  intros Hb Hlen Hi Hj Ha Hk. unfold entry, to_anchor_rows.
  rewrite list_lookup_fmap, Hb. simpl.
  by apply anchor_rows_entry.
Qed.

Lemma entry_fmap (f : R → R) (t : list (list (list R))) (b n k : nat) :
  entry ((λ img : list (list R), (λ row : list R, f <$> row) <$> img) <$> t) b n k
  = f <$> entry t b n k.
Proof.
  unfold entry. rewrite list_lookup_fmap.
  destruct (t !! b) as [img|]; simpl; [|done].
  rewrite list_lookup_fmap. destruct (img !! n) as [row|]; simpl; [|done].
  by rewrite list_lookup_fmap.
Qed.

Lemma height_take (n : nat) (img : list (list (list R))) :
  0 < n → height (take n img) = height img.
Proof. intros Hn. destruct n; [lia|]. by destruct img. Qed.

Lemma width_take (n : nat) (img : list (list (list R))) :
  0 < n → width (take n img) = width img.
Proof. intros Hn. destruct n; [lia|]. by destruct img. Qed.

Lemma height_drop (H W n : nat) (img : list (list (list R))) :
  rect H W img → n < length img → height (drop n img) = height img.
Proof.
  intros Hrect Hn.
  assert (img ≠ []) by (intros ->; simpl in Hn; lia).
  assert (drop n img ≠ []).
  { intros Hd. apply (f_equal length) in Hd. rewrite length_drop in Hd.
    simpl in Hd. lia. }
  rewrite (rect_height H W img), (rect_height H W (drop n img));
    auto using rect_drop.
Qed.

Lemma width_drop (H W n : nat) (img : list (list (list R))) :
  rect H W img → n < length img → 0 < H → width (drop n img) = width img.
Proof.
  intros Hrect Hn HH.
  assert (img ≠ []) by (intros ->; simpl in Hn; lia).
  assert (drop n img ≠ []).
  { intros Hd. apply (f_equal length) in Hd. rewrite length_drop in Hd.
    simpl in Hd. lia. }
  rewrite (rect_width H W img), (rect_width H W (drop n img));
    auto using rect_drop.
Qed.

Lemma image_through_snoc (head : list layer) (l : layer)
    (img : list (list (list R))) :
  image_through (head ++ [l]) img = layer_image l (image_through head img).
Proof. unfold image_through. by rewrite foldl_app. Qed.

Lemma conv_head_S (rng : initializer) (input_feature_size feature_size n : nat) :
  conv_head rng input_feature_size feature_size (S n)
  = conv_head rng input_feature_size feature_size n
      ++ [Conv (Conv2d.__init__ rng n
                  (if decide (n = 0) then input_feature_size else feature_size)
                  feature_size 3 1);
          ReLU].
Proof.
  unfold conv_head. by rewrite seq_S, bind_app.
Qed.

Lemma chunks_row_lengths (n k : nat) (l : list R) :
  length l = k * n → Forall (λ r, length r = n) (chunks n k l).
Proof.
  revert l. induction k as [|k IH]; intros l Hl; simpl; constructor.
  - rewrite length_take. lia.
  - apply IH. rewrite length_drop. lia.
Qed.

(** The rows cut from an image of [A * n] channels of size [H] by [W]:
    [H * W * A] rows of [n] entries. *)
Lemma anchor_rows_shape (n A H W : nat) (img : list (list (list R))) :
  rect H W img → length img = A * n → 0 < n →
  let flat := concat (concat (permute_image img)) in
  length (chunks n (length flat / n) flat) = H * W * A
  ∧ Forall (λ r, length r = n) (chunks n (length flat / n) flat).
Proof.
  intros Hrect Hlen Hn flat.
  assert (length flat = height img * width img * A * n) as Hflat.
  { unfold flat. rewrite permute_image_flat_length, Hlen. lia. }
  assert (length flat / n = height img * width img * A) as Hk.
  { rewrite Hflat. apply Nat.div_mul. lia. }
  split; [|apply chunks_row_lengths; by rewrite Hk].
  rewrite chunks_length, Hk.
  destruct A as [|A]; [lia|].
  assert (img ≠ []) as Hne by (intros ->; simpl in Hlen; lia).
  rewrite (rect_height H W) by done.
  destruct H as [|H]; [done|].
  by rewrite (rect_width (S H) W) by (done || lia).
Qed.

Lemma anchor_rows_of_batch (n A H W : nat)
    (f : list (list (list R)) → list (list (list R)))
    (x : list (list (list (list R)))) (b : nat) (img : list (list (list R))) :
  x !! b = Some img → rect H W (f img) → length (f img) = A * n → 0 < n →
  ∃ rows, to_anchor_rows n (f <$> x) !! b = Some rows
          ∧ length rows = H * W * A
          ∧ Forall (λ r, length r = n) rows.
Proof.
  intros Hb Hrect Hlen Hn. unfold to_anchor_rows.
  rewrite !list_lookup_fmap, Hb. simpl. eexists. split; [done|].
  by apply anchor_rows_shape.
Qed.

Lemma to_anchor_rows_length (n : nat) (x : list (list (list (list R)))) :
  length (to_anchor_rows n x) = length x.
Proof. unfold to_anchor_rows. by rewrite length_fmap. Qed.

Lemma fill_lengths (v : R) (w : list (list (list (list R)))) (b : list R) :
  length (fill4 0 w) = length w ∧ length (fill1 v b) = length b.
Proof. unfold fill4, fill1. by rewrite !length_fmap. Qed.

(** ** Layers on batches *)

Lemma bind_Ok {A B} (f : A → result B) (a : A) : Ok a ≫= f = f a.
Proof. reflexivity. Qed.

Lemma bind_Raise {A B} (f : A → result B) (e : exn) : Raise e ≫= f = Raise e.
Proof. reflexivity. Qed.

Lemma Sequential_snoc (head : list layer) (l : layer)
    (x : list (list (list (list R)))) :
  Sequential (head ++ [l]) x = (y ← Sequential head x; layer_forward l y).
Proof. unfold Sequential. by rewrite foldl_app. Qed.

Lemma Conv2d_forward_ok (c : Conv2d.t) (x : list (list (list (list R)))) :
  Conv2d.accepts c x → Conv2d.forward c x = Ok (Conv2d.forward_image c <$> x).
Proof. intros Ha. unfold Conv2d.forward. by rewrite decide_True. Qed.

Lemma Conv2d_forward_inv (c : Conv2d.t) (x y : list (list (list (list R)))) :
  Conv2d.forward c x = Ok y →
  Conv2d.accepts c x ∧ y = Conv2d.forward_image c <$> x.
Proof.
  unfold Conv2d.forward. destruct (decide (Conv2d.accepts c x)); [|done].
  intros [= <-]. done.
Qed.

Lemma Conv2d_forward_error (c : Conv2d.t) (x : list (list (list (list R))))
    (e : exn) :
  Conv2d.forward c x = Raise e → e = RuntimeError.
Proof.
  unfold Conv2d.forward. destruct (decide (Conv2d.accepts c x)); [done|].
  by intros [= <-].
Qed.

Lemma layer_forward_inv (l : layer) (x y : list (list (list (list R)))) :
  layer_forward l x = Ok y → y = layer_image l <$> x.
Proof.
  destruct l; simpl.
  - intros Hy. by apply Conv2d_forward_inv in Hy as [_ ->].
  - by intros [= <-].
  - by intros [= <-].
Qed.

Lemma Sequential_inv (head : list layer) (x y : list (list (list (list R)))) :
  Sequential head x = Ok y → y = image_through head <$> x.
Proof.
  revert y. induction head as [|l head IH] using rev_ind; intros y Hy.
  - unfold Sequential in Hy. simpl in Hy. simplify_eq.
    unfold image_through. simpl. by rewrite list_fmap_id.
  - rewrite Sequential_snoc in Hy.
    destruct (Sequential head x) as [t|] eqn:Ht; [|done]. csimpl in Hy.
    apply layer_forward_inv in Hy as ->. rewrite (IH t eq_refl).
    rewrite <- list_fmap_compose. apply list_fmap_ext. intros _ img _.
    cbv [compose]. by rewrite image_through_snoc.
Qed.

Lemma Sequential_length (head : list layer) (x y : list (list (list (list R)))) :
  Sequential head x = Ok y → length y = length x.
Proof. intros Hy. apply Sequential_inv in Hy as ->. by rewrite length_fmap. Qed.

Lemma accepts_batch (c : Conv2d.t) (C H W : nat)
    (x : list (list (list (list R)))) :
  batch_of C H W x → Conv2d.in_channels c = C → 0 < C → 0 < H →
  Conv2d.kernel_size c ≤ H + 2 * Conv2d.padding c →
  Conv2d.kernel_size c ≤ W + 2 * Conv2d.padding c →
  Conv2d.accepts c x.
Proof.
  intros Hx Hc HC HH Hkh Hkw. destruct x as [|img x]; [done|]. simpl.
  pose proof (Forall_inv Hx) as [Hlen Hrect].
  assert (img ≠ []) as Hne by (intros ->; simpl in Hlen; lia).
  rewrite (rect_height H W), (rect_width H W) by done.
  rewrite Hc. by repeat split.
Qed.

Lemma batch_of_conv (c : Conv2d.t) (C C' H W : nat)
    (x : list (list (list (list R)))) :
  batch_of C H W x → 0 < C →
  length (Conv2d.weight c) = C' → length (Conv2d.bias c) = C' →
  (∀ n, Conv2d.out_size c n = n) →
  batch_of C' H W (Conv2d.forward_image c <$> x).
Proof.
  intros Hx HC Hw Hb Hsize. unfold batch_of. apply Forall_fmap.
  eapply Forall_impl; [exact Hx|]. intros img [Hlen Hrect]. simpl.
  apply forward_image_shape; try done. intros ->. simpl in Hlen. lia.
Qed.

Lemma batch_of_map4 (f : R → R) (C H W : nat) (x : list (list (list (list R)))) :
  batch_of C H W x → batch_of C H W (map4 f x).
Proof.
  intros Hx. unfold batch_of, map4. apply Forall_fmap.
  eapply Forall_impl; [exact Hx|]. intros img [Hlen Hrect]. simpl.
  split; [by rewrite length_fmap|by apply rect_map].
Qed.

(** The convolution stack of a head accepts every batch of
    [input_feature_size] channels and keeps its spatial size. *)
Lemma trunk_ok (rng : initializer) (input_feature_size feature_size n H W : nat)
    (x : list (list (list (list R)))) :
  batch_of input_feature_size H W x →
  0 < input_feature_size → 0 < H → 0 < W → (0 < n → 0 < feature_size) →
  ∃ t, Sequential (conv_head rng input_feature_size feature_size n) x = Ok t
       ∧ batch_of (if decide (n = 0) then input_feature_size else feature_size)
           H W t
       ∧ length t = length x.
Proof.
  intros Hx Hifs HH HW Hfs. induction n as [|n IH].
  - exists x. split; [done|]. split; [|done]. by destruct (decide (0 = 0)).
  - destruct IH as (t & Ht & Hshape & Hlen); [intros; apply Hfs; lia|].
    assert (0 < feature_size) as Hf by (apply Hfs; lia).
    rewrite conv_head_S.
    replace (conv_head rng input_feature_size feature_size n ++ [Conv _; ReLU])
      with ((conv_head rng input_feature_size feature_size n ++ [Conv
              (Conv2d.__init__ rng n
                 (if decide (n = 0) then input_feature_size else feature_size)
                 feature_size 3 1)]) ++ [ReLU]) by (by rewrite <- app_assoc).
    rewrite !Sequential_snoc, Ht. csimpl.
    set (cin := if decide (n = 0) then input_feature_size else feature_size) in *.
    assert (0 < cin) as Hcin by (unfold cin; by destruct (decide (n = 0))).
    rewrite Conv2d_forward_ok; csimpl.
    2: { apply (accepts_batch _ cin H W); simpl; (done || lia). }
    eexists. split; [done|].
    destruct (decide (S n = 0)) as [|_]; [lia|]. split.
    + apply batch_of_map4. apply (batch_of_conv _ cin); try done.
      * simpl. by rewrite length_fmap, length_seq.
      * simpl. by rewrite length_fmap, length_seq.
      * intros m. unfold Conv2d.out_size. simpl. lia.
    + unfold map4. by rewrite !length_fmap.
Qed.

Lemma permute_reshape_ok (n A : nat) (x : list (list (list (list R)))) :
  x ≠ [] → 0 < n → Forall (λ img, length img = A * n) x →
  permute_reshape n x = Ok (to_anchor_rows n x).
Proof.
  intros Hne Hn Hx. destruct x as [|img x]; [done|]. unfold permute_reshape.
  rewrite decide_True; [done|]. split; [done|].
  rewrite (Forall_inv Hx).
  replace (A * n * height img * width img)
    with (A * height img * width img * n) by lia.
  apply Nat.Div0.mod_mul.
Qed.

Lemma permute_reshape_inv (n : nat) (x : list (list (list (list R))))
    (out : list (list (list R))) :
  permute_reshape n x = Ok out → out = to_anchor_rows n x ∧ x ≠ [] ∧ 0 < n.
Proof.
  destruct x as [|img x]; [done|]. unfold permute_reshape.
  destruct (decide _) as [[Hn _]|]; [|done]. by intros [= <-].
Qed.

(** The rows of a batch of [A * n] channels of size [H] by [W]. *)
Lemma to_anchor_rows_shape (n A H W : nat) (x : list (list (list (list R)))) :
  batch_of (A * n) H W x → 0 < n →
  Forall (λ rows, length rows = H * W * A ∧ Forall (λ r, length r = n) rows)
    (to_anchor_rows n x).
Proof.
  intros Hx Hn. unfold to_anchor_rows. apply Forall_fmap.
  eapply Forall_impl; [exact Hx|]. intros img [Hlen Hrect]. simpl.
  by apply anchor_rows_shape.
Qed.

(** ** ClassificationHead *)


(** In exact arithmetic the sigmoid of the prior bias is the prior
    probability. *)
Lemma sigmoid_prior_bias (p : R) :
  (0 < p < 1)%R → sigmoid (- ln ((1 - p) / p)) = p.
Proof.
  intros [H0 H1]. unfold sigmoid. rewrite Ropp_involutive, exp_ln.
  - field. lra.
  - apply Rdiv_lt_0_compat; lra.
Qed.

Section ClassificationHeadInit.
Variable rng : initializer.
Variables input_feature_size feature_size num_layers num_anchors num_classes : nat.
Variable use_bg_predictor : bool.

Let total : nat := if use_bg_predictor then num_classes + 1 else num_classes.
Let cin : nat :=
  if decide (num_layers = 0) then input_feature_size else feature_size.
Let trunk : list layer := conv_head rng input_feature_size feature_size num_layers.
Let classifier : Conv2d.t := Conv2d.__init__ rng num_layers cin (total * num_anchors) 1 0.
Let initialized (b : R) : Conv2d.t :=
  Conv2d.Build cin (fill4 0 (Conv2d.weight classifier))
    (fill1 b (Conv2d.bias classifier)) 1 0.

(** The constructor fails only where the bias expression does. *)
Lemma ClassificationHead_init_cases (prior_prob : R) :
  ClassificationHead.__init__ rng input_feature_size feature_size num_layers
    num_anchors num_classes use_bg_predictor prior_prob
  = (b ← prior_bias prior_prob;
     Ok (ClassificationHead.Build total
           ((trunk ++ [Conv (initialized b)]) ++ [Sigmoid]))).
Proof.
  unfold ClassificationHead.__init__. cbv zeta.
  fold total. fold cin. fold trunk. fold classifier.
  rewrite snoc2_lookup.
  destruct (prior_bias prior_prob) as [b|]; csimpl; [|done].
  by rewrite snoc2_insert.
Qed.

Lemma ClassificationHead_init_ok (prior_prob : R) :
  (0 < prior_prob < 1)%R →
  ClassificationHead.__init__ rng input_feature_size feature_size num_layers
    num_anchors num_classes use_bg_predictor prior_prob
  = Ok (ClassificationHead.Build total
          ((trunk ++ [Conv (initialized (- ln ((1 - prior_prob) / prior_prob)))])
             ++ [Sigmoid])).
Proof.
  intros Hp. by rewrite ClassificationHead_init_cases, prior_bias_ok.
Qed.

Lemma classifier_lengths (b : R) :
  length (Conv2d.weight (initialized b)) = total * num_anchors
  ∧ length (Conv2d.bias (initialized b)) = total * num_anchors.
Proof.
  unfold initialized, classifier, fill4, fill1. simpl.
  by rewrite !length_fmap, !length_seq.
Qed.

End ClassificationHeadInit.




(** ** Construction errors *)

(** C9.  With [use_class_specific_bbox] set and [num_classes] None, the
    constructors of RegressionHead and CombinedHead raise, whatever the
    other arguments: no head is returned that a forward pass could run
    on.  RegressionHead fails its assertion; CombinedHead fails its
    assertion too, unless [use_bg_predictor] is set, in which case the
    earlier [None + 1] raises a TypeError. *)
Theorem class_specific_bbox_without_num_classes_raises
    (rng : initializer)
    (input_feature_size feature_size num_layers num_anchors : nat)
    (use_bg_predictor : bool) (prior_prob : R) :
  RegressionHead.__init__ rng input_feature_size feature_size num_layers
    num_anchors None true = Raise AssertionError
  ∧ CombinedHead.__init__ rng input_feature_size feature_size num_layers
      num_anchors None true use_bg_predictor prior_prob
    = Raise (if use_bg_predictor then TypeError else AssertionError).
Proof. split; [done|]. by destruct use_bg_predictor. Qed.

(** ** CombinedHead *)

Section CombinedHeadInit.
Variable rng : initializer.
Variables input_feature_size feature_size num_layers num_anchors num_classes : nat.
Variables use_class_specific_bbox use_bg_predictor : bool.
Variable prior_prob : R.
Hypothesis prior_prob_range : (0 < prior_prob < 1)%R.

Let classes : nat := if use_bg_predictor then num_classes + 1 else num_classes.
Let bbox : nat := if use_class_specific_bbox then 4 * num_classes else 4.
Let trunk : list layer := conv_head rng input_feature_size feature_size num_layers.
Let combined : Conv2d.t :=
  Conv2d.__init__ rng num_layers
    (if decide (num_layers = 0) then input_feature_size else feature_size)
    (num_anchors * (classes + bbox)) 1 0.
Let initialized : Conv2d.t :=
  Conv2d.Build
    (if decide (num_layers = 0) then input_feature_size else feature_size)
    (fill4 0 (take (num_anchors * classes) (Conv2d.weight combined))
       ++ drop (num_anchors * classes) (Conv2d.weight combined))
    (fill1 (- ln ((1 - prior_prob) / prior_prob))
       (take (num_anchors * classes) (Conv2d.bias combined))
       ++ drop (num_anchors * classes) (Conv2d.bias combined))
    1 0.

Lemma CombinedHead_init_ok :
  CombinedHead.__init__ rng input_feature_size feature_size num_layers
    num_anchors (Some num_classes) use_class_specific_bbox use_bg_predictor
    prior_prob
  = Ok (CombinedHead.Build classes bbox (num_anchors * classes)
          (trunk ++ [Conv initialized])).
Proof.
  unfold CombinedHead.__init__.
  assert ((if use_bg_predictor then Ok (Some (num_classes + 1))
           else Ok (Some num_classes))
          = Ok (Some classes) :> result (option nat)) as ->
    by (unfold classes; by destruct use_bg_predictor).
  assert ((if use_class_specific_bbox then Ok (4 * num_classes) else Ok 4)
          = Ok bbox :> result nat) as ->
    by (unfold bbox; by destruct use_class_specific_bbox).
  csimpl. fold trunk. fold combined.
  rewrite snoc1_lookup, prior_bias_ok by done. csimpl.
  by rewrite snoc1_insert.
Qed.

Lemma combined_weight_length :
  length (Conv2d.weight combined) = num_anchors * (classes + bbox).
Proof. unfold combined. simpl. by rewrite length_fmap, length_seq. Qed.

Lemma combined_bias_length :
  length (Conv2d.bias combined) = num_anchors * (classes + bbox).
Proof. unfold combined. simpl. by rewrite length_fmap, length_seq. Qed.

Lemma initialized_weight_length :
  length (Conv2d.weight initialized) = num_anchors * (classes + bbox).
Proof.
  unfold initialized, fill4. cbn [Conv2d.weight].
  rewrite length_app, length_fmap, length_take, length_drop, combined_weight_length.
  lia.
Qed.

Lemma initialized_bias_length :
  length (Conv2d.bias initialized) = num_anchors * (classes + bbox).
Proof.
  unfold initialized, fill1. cbn [Conv2d.bias].
  rewrite length_app, length_fmap, length_take, length_drop, combined_bias_length.
  lia.
Qed.
End CombinedHeadInit.

(** C10.  For a prior probability strictly between 0 and 1 and a given
    [num_classes], the constructor of CombinedHead succeeds and the
    layers of the head are the ones torch created, except for the first
    [split_point = num_anchors * total_num_classes] output channels of
    the last convolution: at every channel index from [split_point] on,
    its weight and bias are the default ones; below it the weight is
    zero and the bias is [-log((1 - p) / p)]. *)
Theorem combined_head_init_keeps_regression_channels
    (rng : initializer)
    (input_feature_size feature_size num_layers num_anchors num_classes : nat)
    (use_class_specific_bbox use_bg_predictor : bool) (p : R) :
  (0 < p < 1)%R →
  let created :=
    Conv2d.__init__ rng num_layers
      (if decide (num_layers = 0) then input_feature_size else feature_size)
      (num_anchors
       * ((if use_bg_predictor then num_classes + 1 else num_classes)
          + (if use_class_specific_bbox then 4 * num_classes else 4)))
      1 0 in
  ∃ h c,
    CombinedHead.__init__ rng input_feature_size feature_size num_layers
      num_anchors (Some num_classes) use_class_specific_bbox use_bg_predictor p
    = Ok h
    ∧ CombinedHead.head h
      = conv_head rng input_feature_size feature_size num_layers ++ [Conv c]
    ∧ CombinedHead.split_point h
      = num_anchors * (if use_bg_predictor then num_classes + 1 else num_classes)
    ∧ (∀ o, CombinedHead.split_point h ≤ o →
         Conv2d.weight c !! o = Conv2d.weight created !! o
         ∧ Conv2d.bias c !! o = Conv2d.bias created !! o)
    ∧ (∀ o, o < CombinedHead.split_point h →
         (∃ w_o, Conv2d.weight c !! o = Some w_o
                 ∧ Forall (Forall (Forall (λ v, v = 0%R))) w_o)
         ∧ Conv2d.bias c !! o = Some (- ln ((1 - p) / p))%R).
Proof.
  intros Hp created. rewrite CombinedHead_init_ok by done.
  pose proof (combined_weight_length rng input_feature_size feature_size
                num_layers num_anchors num_classes use_class_specific_bbox
                use_bg_predictor) as Hw.
  pose proof (combined_bias_length rng input_feature_size feature_size
                num_layers num_anchors num_classes use_class_specific_bbox
                use_bg_predictor) as Hb.
  cbv zeta in Hw, Hb. fold created in Hw, Hb.
  set (classes := if use_bg_predictor then num_classes + 1 else num_classes) in *.
  set (bbox := if use_class_specific_bbox then 4 * num_classes else 4) in *.
  eexists _, _. split; [done|]. cbn [CombinedHead.head CombinedHead.split_point].
  split; [done|]. split; [done|]. cbn [Conv2d.weight Conv2d.bias].
  fold created.
  assert (num_anchors * classes ≤ num_anchors * (classes + bbox)) as Hle by lia.
  split.
  - intros o Ho. split.
    + rewrite lookup_app_r; unfold fill4;
        rewrite length_fmap, length_take, Hw, Nat.min_l by done; [|done].
      rewrite lookup_drop. f_equal. lia.
    + rewrite lookup_app_r; unfold fill1;
        rewrite length_fmap, length_take, Hb, Nat.min_l by done; [|done].
      rewrite lookup_drop. f_equal. lia.
  - intros o Ho. split.
    + destruct (lookup_lt_is_Some_2
                  (fill4 0 (take (num_anchors * classes) (Conv2d.weight created))) o)
        as [w_o Hwo].
      { unfold fill4. rewrite length_fmap, length_take, Hw. lia. }
      exists w_o. split.
      * by apply lookup_app_l_Some.
      * exact (Forall_lookup_1 _ _ _ _ (fill4_zero _) Hwo).
    + destruct (lookup_lt_is_Some_2
                  (fill1 (- ln ((1 - p) / p))
                     (take (num_anchors * classes) (Conv2d.bias created))) o)
        as [b_o Hbo].
      { unfold fill1. rewrite length_fmap, length_take, Hb. lia. }
      rewrite (lookup_app_l_Some _ _ _ _ Hbo).
      by rewrite (Forall_lookup_1 _ _ _ _ (fill1_const _ _) Hbo).
Qed.

Lemma combined_head_init_keeps_regression_channels_witness :
  let rng := {| draw_weight := λ _ _ _ _ _, 1%R; draw_bias := λ _ _, 1%R |} in
  let created := Conv2d.__init__ rng 1 (if decide (1 = 0) then 2 else 2)
                   (3 * ((if false then 2 + 1 else 2) + (if false then 4 * 2 else 4)))
                   1 0 in
  ∃ h c,
    CombinedHead.__init__ rng 2 2 1 3 (Some 2) false false 0.01 = Ok h
    ∧ CombinedHead.head h = conv_head rng 2 2 1 ++ [Conv c]
    ∧ CombinedHead.split_point h = 3 * (if false then 2 + 1 else 2)
    ∧ (∀ o, CombinedHead.split_point h ≤ o →
         Conv2d.weight c !! o = Conv2d.weight created !! o
         ∧ Conv2d.bias c !! o = Conv2d.bias created !! o)
    ∧ (∀ o, o < CombinedHead.split_point h →
         (∃ w_o, Conv2d.weight c !! o = Some w_o
                 ∧ Forall (Forall (Forall (λ v, v = 0%R))) w_o)
         ∧ Conv2d.bias c !! o = Some (- ln ((1 - 0.01) / 0.01))%R).
Proof.
  apply (combined_head_init_keeps_regression_channels
           {| draw_weight := λ _ _ _ _ _, 1%R; draw_bias := λ _ _, 1%R |}
           2 2 1 3 2 false false 0.01).
  lra.
Defined.


(** C8.  For a head with at least one anchor, one class channel and
    one box channel, the constructor fixes
    [split_point = num_anchors * total_num_classes], with
    [total_num_classes] and [total_num_bbox] as the arguments give
    them.  Whenever the layers of the head return an output [y] for a
    batch that is not empty, forward returns both outputs, read off
    [y]: for the cell (i, j) of image [b] and the anchor [a] of that
    cell, entry [k] of the classification row is the sigmoid of channel
    [a * total_num_classes + k], a channel below [split_point], and
    entry [k] of the regression row is channel
    [split_point + a * total_num_bbox + k] as it is. *)
Theorem combined_head_forward_splits_at_split_point
    (rng : initializer)
    (input_feature_size feature_size num_layers num_anchors num_classes : nat)
    (use_class_specific_bbox use_bg_predictor : bool) (p : R) :
  (0 < p < 1)%R →
  let classes := if use_bg_predictor then num_classes + 1 else num_classes in
  let bbox := if use_class_specific_bbox then 4 * num_classes else 4 in
  0 < classes → 0 < bbox → 0 < num_anchors →
  ∃ h,
    CombinedHead.__init__ rng input_feature_size feature_size num_layers
      num_anchors (Some num_classes) use_class_specific_bbox use_bg_predictor p
    = Ok h
    ∧ CombinedHead.total_num_classes h = classes
    ∧ CombinedHead.total_num_bbox h = bbox
    ∧ CombinedHead.split_point h = num_anchors * classes
    ∧ ∀ x y,
        Sequential (CombinedHead.head h) x = Ok y → y ≠ [] →
        ∃ cls reg,
          CombinedHead.forward h x = Ok (cls, reg)
          ∧ length cls = length x
          ∧ length reg = length x
          ∧ ∀ b y_b,
              y !! b = Some y_b →
              length y_b = num_anchors * (classes + bbox)
              ∧ ∀ i j a,
                  i < height y_b → j < width y_b → a < num_anchors →
                  (∀ k, k < classes →
                     entry cls b ((i * width y_b + j) * num_anchors + a) k
                     = Some (sigmoid (pixel y_b (a * classes + k) i j))
                     ∧ a * classes + k < CombinedHead.split_point h)
                  ∧ (∀ k, k < bbox →
                       entry reg b ((i * width y_b + j) * num_anchors + a) k
                       = Some (pixel y_b
                                 (CombinedHead.split_point h + a * bbox + k)
                                 i j)).
Proof.
  intros Hp classes bbox Hclasses Hbbox HA.
  rewrite CombinedHead_init_ok by done.
  pose proof (initialized_weight_length rng input_feature_size feature_size
                num_layers num_anchors num_classes use_class_specific_bbox
                use_bg_predictor p) as Hw.
  pose proof (initialized_bias_length rng input_feature_size feature_size
                num_layers num_anchors num_classes use_class_specific_bbox
                use_bg_predictor p) as Hb.
  cbv zeta in Hw, Hb. fold classes bbox in Hw, Hb |- *.
  set (c := Conv2d.Build _ _ _ 1 0) in *.
  eexists. split; [done|].
  cbn [CombinedHead.head CombinedHead.split_point CombinedHead.total_num_classes
       CombinedHead.total_num_bbox].
  do 3 (split; [done|]). intros x y Hy Hne.
  unfold CombinedHead.forward.
  cbn [CombinedHead.head CombinedHead.split_point CombinedHead.total_num_classes
       CombinedHead.total_num_bbox].
  rewrite Hy. csimpl.
  pose proof (Sequential_length _ _ _ Hy) as Hlen.
  rewrite Sequential_snoc in Hy.
  destruct (Sequential _ x) as [t|] eqn:Ht; [|done]. csimpl in Hy.
  apply Conv2d_forward_inv in Hy as [_ ->].
  assert (Forall (λ img, length img = num_anchors * (classes + bbox)
                         ∧ ∃ H W, rect H W img)
            (Conv2d.forward_image c <$> t)) as Hshape.
  { apply Forall_fmap, Forall_forall. intros img _. simpl. split.
    - rewrite forward_image_length, Hw, Hb. lia.
    - eexists _, _. apply forward_image_rect. }
  set (y := Conv2d.forward_image c <$> t) in *.
  rewrite (permute_reshape_ok classes num_anchors).
  2: { destruct y; [done|]. done. }
  2: done.
  2: { apply Forall_fmap. eapply Forall_impl; [exact Hshape|].
       intros img [Hl _]. simpl. rewrite length_take, Hl. lia. }
  csimpl.
  rewrite (permute_reshape_ok bbox num_anchors).
  2: { destruct y; [done|]. done. }
  2: done.
  2: { apply Forall_fmap. eapply Forall_impl; [exact Hshape|].
       intros img [Hl _]. simpl. rewrite length_drop, Hl. lia. }
  csimpl. eexists _, _. split; [done|].
  rewrite length_fmap, !to_anchor_rows_length, !length_fmap, Hlen.
  do 2 (split; [done|]). intros b y_b Hb'.
  destruct (Forall_lookup_1 _ _ _ _ Hshape Hb') as [Hl (H & W & Hrect)].
  split; [done|]. intros i j a Hi Hj Ha.
  assert (y_b ≠ []) as Hne'
    by (intros ->; unfold height in Hi; simpl in Hi; lia).
  assert (height y_b = H) as HH by (by apply (rect_height H W)).
  split.
  - intros k Hk.
    assert (0 < num_anchors * classes) by nia.
    assert ((a + 1) * classes ≤ num_anchors * classes) as Hrow
      by (apply Nat.mul_le_mono_r; lia).
    split; [|lia].
    rewrite entry_fmap.
    rewrite <- (height_take (num_anchors * classes)) in Hi by done.
    rewrite <- (width_take (num_anchors * classes) y_b) in Hj |- * by done.
    rewrite (to_anchor_rows_entry classes num_anchors _ b
               (take (num_anchors * classes) y_b));
      [|by rewrite list_lookup_fmap, Hb'|rewrite length_take; lia|done..].
    simpl. by rewrite pixel_take by lia.
  - intros k Hk.
    assert (0 < num_anchors * bbox) by nia.
    assert (num_anchors * classes < length y_b) as Hsp by lia.
    assert (0 < H) as Hpos by lia.
    rewrite <- (height_drop H W (num_anchors * classes)) in Hi by done.
    rewrite <- (width_drop H W (num_anchors * classes) y_b) in Hj |- *
      by (done || lia).
    rewrite (to_anchor_rows_entry bbox num_anchors _ b
               (drop (num_anchors * classes) y_b));
      [|by rewrite list_lookup_fmap, Hb'|rewrite length_drop; lia|done..].
    rewrite pixel_drop. do 2 f_equal. lia.
Qed.

Lemma combined_head_forward_splits_at_split_point_witness :
  let rng := {| draw_weight := λ _ _ _ _ _, 1%R; draw_bias := λ _ _, 1%R |} in
  let x := [[[[1; 2]; [3; 4]]; [[5; 6]; [7; 8]]]]%R in
  ∃ h y y_b cls reg,
    CombinedHead.__init__ rng 2 2 1 3 (Some 2) false true 0.01 = Ok h
    ∧ CombinedHead.split_point h = 3 * 3
    ∧ Sequential (CombinedHead.head h) x = Ok y
    ∧ y !! 0 = Some y_b
    ∧ CombinedHead.forward h x = Ok (cls, reg)
    ∧ entry cls 0 ((1 * width y_b + 0) * 3 + 2) 1
      = Some (sigmoid (pixel y_b (2 * 3 + 1) 1 0))
    ∧ entry reg 0 ((1 * width y_b + 0) * 3 + 2) 1
      = Some (pixel y_b (CombinedHead.split_point h + 2 * 4 + 1) 1 0).
Proof.
  intros rng x.
  destruct (combined_head_forward_splits_at_split_point rng 2 2 1 3 2 false true
              0.01) as (h & Hinit & _ & _ & Hsplit & Hforward);
    [lra | simpl; lia ..|].
  pose proof Hinit as Hh. rewrite CombinedHead_init_ok in Hh by lra.
  injection Hh as <-.
  eexists _, _, _. 
  destruct (Hforward x _ eq_refl) as (cls & reg & Hfwd & _ & _ & Hentries);
    [discriminate|].
  destruct (Hentries 0 _ eq_refl) as [_ Hy].
  destruct (Hy 1 0 2) as [Hcls Hreg]; [unfold height; simpl; lia
                                      |unfold width; simpl; lia|lia|].
  exists cls, reg. split; [exact Hinit|]. split; [exact Hsplit|].
  split; [reflexivity|]. split; [reflexivity|]. split; [exact Hfwd|].
  split; [apply (Hcls 1); simpl; lia|apply (Hreg 1); simpl; lia].
Defined.

(** ** ComputeTargets *)







(** ** The embedding on small inputs *)

(** Boolean-mask indexing keeps the masked rows in row-major order and
    refuses a mask of another shape. *)
Example index_mask_keeps_masked_rows :
  index_mask (ne_scalar [[1; -1]; [0; 1]]%Z (-1)) [[10; 20]; [30; 40]]
  = Ok [10; 30; 40].
Proof. reflexivity. Qed.

Example index_mask_shape_mismatch :
  index_mask (ne_scalar [[1; -1]]%Z (-1)) [[10]] = Raise IndexError.
Proof. reflexivity. Qed.

(** A 1x1 convolution is a weighted sum over channels plus the bias. *)
Example conv_1x1_pixel :
  Conv2d.forward_image (Conv2d.Build 2 [[[[2]]; [[3]]]]%R [1]%R 1 0)
    [[[5]]; [[7]]]%R
  = [[[32]]]%R.
Proof.
  unfold Conv2d.forward_image, Conv2d.at_position, padded, pixel. simpl.
  do 3 f_equal. lra.
Qed.

(** A 3x3 convolution with padding 1 keeps the spatial size and reads
    zeros outside the image: at the top-left cell of a 2x2 image only
    the lower-right 2x2 block of the kernel meets the image. *)
Example conv_3x3_padding :
  Conv2d.forward_image
    (Conv2d.Build 1 [[[[1; 2; 3]; [4; 5; 6]; [7; 8; 9]]]]%R [0]%R 3 1)
    [[[1; 2]; [3; 4]]]%R
  = [[[77; 67]; [47; 37]]]%R.
Proof.
  unfold Conv2d.forward_image, Conv2d.at_position, padded, pixel. simpl.
  repeat (f_equal; try lra).
Qed.

(** Channel-last rows: four channels over a 1x2 grid, two values per
    anchor, give the two anchors of the first cell and then the two of
    the second. *)
Example to_anchor_rows_order :
  to_anchor_rows 2 [[[[1; 2]]; [[3; 4]]; [[5; 6]]; [[7; 8]]]]%R
  = [[[1; 3]; [5; 7]; [2; 4]; [6; 8]]]%R.
Proof. reflexivity. Qed.

(** A layer refuses a batch of another channel count, and the reshape
    of a head refuses the empty batch. *)
Example conv_refuses_other_channel_count :
  Conv2d.forward (Conv2d.Build 2 [[[[2]]; [[3]]]]%R [1]%R 1 0) [[[[5]]]]%R
  = Raise RuntimeError.
Proof. reflexivity. Qed.

Example permute_reshape_refuses_empty_batch (n : nat) :
  permute_reshape n [] = Raise RuntimeError.
Proof. reflexivity. Qed.

(** ** More on ComputeLosses.forward *)

Lemma select_row_inv {A} (f : Z → bool) (ss : list Z) (row r : list A) :
  select_row (f <$> ss) row = Ok r → length ss = length row.
Proof.
  revert row r. induction ss as [|s ss IH]; intros [|x row] r Hr;
    simplify_eq/=; [done|].
  destruct (select_row (f <$> ss) row) as [r'|] eqn:Hsel; [|done].
  f_equal. by eapply IH.
Qed.

Lemma index_mask_inv {A} (f : Z → bool) (states : list (list Z))
    (t : list (list A)) (r : list A) :
  index_mask ((λ row : list Z, f <$> row) <$> states) t = Ok r →
  same_shape states t.
Proof.
  revert t r. induction states as [|s states IH]; intros [|row t] r Hr;
    simplify_eq/=; [constructor|].
  destruct (select_row (f <$> s) row) as [a|] eqn:Hsel; [|done].
  simpl in Hr.
  destruct (index_mask ((λ row : list Z, f <$> row) <$> states) t)
    as [b|] eqn:Hrest; [|done].
  constructor; [by eapply select_row_inv|by eapply IH].
Qed.

Lemma select_row_error {A} (m : list bool) (t : list A) (e : exn) :
  select_row m t = Raise e → e = IndexError.
Proof.
  revert t. induction m as [|b m IH]; intros [|x t] He; simplify_eq/=; try done.
  destruct (select_row m t) eqn:Hsel; [done|]. simplify_eq/=. by eapply IH.
Qed.

Lemma index_mask_error {A} (m : list (list bool)) (t : list (list A)) (e : exn) :
  index_mask m t = Raise e → e = IndexError.
Proof.
  revert t. induction m as [|mr m IH]; intros [|tr t] He; simplify_eq/=; try done.
  destruct (select_row mr tr) eqn:Hsel; simpl in He.
  - destruct (index_mask m t) eqn:Hrest; [done|]. simplify_eq/=. by eapply IH.
  - simplify_eq. by eapply select_row_error.
Qed.

Lemma index_last_inv (row : list R) (x : R) : index_last row = Ok x → row ≠ [].
Proof. unfold index_last. intros Hx ->. done. Qed.

Lemma index_last_error (row : list R) (e : exn) :
  index_last row = Raise e → e = IndexError.
Proof. unfold index_last. destruct (last row); by intros [=]. Qed.

Lemma map_result_index_last_inv (img : list (list R)) (v : list R) :
  map_result index_last img = Ok v →
  Forall (λ row, row ≠ []) img ∧ length v = length img.
Proof.
  revert v. induction img as [|row img IH]; intros v Hv; [by simplify_eq/=|].
  cbn [map_result] in Hv.
  destruct (index_last row) as [x|] eqn:Hl; [|done].
  destruct (map_result index_last img) as [v'|] eqn:Hrest; [|done].
  simplify_eq/=. destruct (IH v' eq_refl) as [Hne Hlen]. split.
  - constructor; [by eapply index_last_inv|done].
  - by f_equal.
Qed.

Lemma map_result_index_last_error (img : list (list R)) (e : exn) :
  map_result index_last img = Raise e → e = IndexError.
Proof.
  induction img as [|row img IH]; intros He; [done|].
  cbn [map_result] in He.
  destruct (index_last row) as [x|e'] eqn:Hl.
  - destruct (map_result index_last img) eqn:Hrest; [done|].
    simplify_eq/=. by apply IH.
  - simplify_eq/=. by eapply index_last_error.
Qed.

Lemma last_channel_inv (t : list (list (list R))) (bg : list (list R)) :
  last_channel t = Ok bg →
  Forall (Forall (λ row, row ≠ [])) t ∧ Forall2 (λ v img, length v = length img) bg t.
Proof.
  unfold last_channel. revert bg.
  induction t as [|img t IH]; intros bg Hbg; [by simplify_eq/=|].
  cbn [map_result] in Hbg.
  destruct (map_result index_last img) as [v|] eqn:Himg; [|done].
  destruct (map_result (map_result index_last) t) as [bg'|] eqn:Hrest; [|done].
  simplify_eq/=. destruct (IH bg' eq_refl) as [Hne Hshape].
  destruct (map_result_index_last_inv _ _ Himg) as [Hne' Hlen].
  split; by constructor.
Qed.

Lemma last_channel_error (t : list (list (list R))) (e : exn) :
  last_channel t = Raise e → e = IndexError.
Proof.
  unfold last_channel. induction t as [|img t IH]; intros He; [done|].
  cbn [map_result] in He.
  destruct (map_result index_last img) as [v|e'] eqn:Himg.
  - destruct (map_result (map_result index_last) t) eqn:Hrest; [done|].
    simplify_eq/=. by apply IH.
  - simplify_eq/=. by eapply map_result_index_last_error.
Qed.

Lemma same_shape_trans_lengths {A B} (states : list (list Z))
    (t : list (list A)) (u : list (list B)) :
  same_shape states t → Forall2 (λ v img, length v = length img) t u →
  same_shape states u.
Proof.
  intros Hs. revert u. induction Hs as [|s r states t Hlen _ IH];
    intros u Hu; inversion Hu; simplify_eq; constructor; [congruence|by apply IH].
Qed.

Lemma index_mask_ne_inv {A} (c : Z) (states : list (list Z)) (t : list (list A))
    (r : list A) :
  index_mask (ne_scalar states c) t = Ok r → same_shape states t.
Proof. unfold ne_scalar. apply index_mask_inv. Qed.

Lemma index_mask_eq_inv {A} (c : Z) (states : list (list Z)) (t : list (list A))
    (r : list A) :
  index_mask (eq_scalar states c) t = Ok r → same_shape states t.
Proof. unfold eq_scalar. apply index_mask_inv. Qed.

Lemma same_shape_sym_lengths {A B} (states : list (list Z))
    (t : list (list A)) (u : list (list B)) :
  same_shape states t → Forall2 (λ v img, length v = length img) t u →
  same_shape states u.
Proof. apply same_shape_trans_lengths. Qed.

Ltac bind_inv H :=
  repeat match type of H with
  | context [mbind _ ?m] =>
      lazymatch m with
      | Ok _ => fail
      | Raise _ => fail
      | context [mbind _ _] => fail
      | _ => let E := fresh "E" in destruct m eqn:E; csimpl in H; try done
      end
  end.

Section Outcomes.
Import ComputeLosses.
Variable self : ComputeLosses.t.
Variables cls_output reg_output cls_target reg_target : list (list (list R)).
Variable anchor_states : list (list Z).

Lemma forward_Ok_inv (d : gmap string R) :
  forward self cls_output reg_output cls_target reg_target anchor_states
  = Ok d →
  same_shape anchor_states cls_output
  ∧ same_shape anchor_states cls_target
  ∧ same_shape anchor_states reg_output
  ∧ same_shape anchor_states reg_target
  ∧ (use_bg_predictor self = true →
     Forall (Forall (λ row, row ≠ [])) cls_output).
Proof.
  intros Hd. destruct (use_bg_predictor self) eqn:Hbg.
  - rewrite forward_steps_with_bg in Hd by done.
    destruct (last_channel cls_output) as [bo|] eqn:Hlast; csimpl in Hd; [|done].
    destruct (index_mask _ bo) as [bo'|] eqn:Hbo; csimpl in Hd; [|done].
    bind_inv Hd.
    apply last_channel_inv in Hlast as [Hne Hlens].
    apply index_mask_ne_inv in Hbo.
    split; [exact (same_shape_trans_lengths _ _ _ Hbo Hlens)|].
    repeat split; eauto using index_mask_ne_inv, index_mask_eq_inv.
  - rewrite forward_steps_without_bg in Hd by done. bind_inv Hd.
    repeat split; eauto using index_mask_ne_inv, index_mask_eq_inv.
    done.
Qed.

Lemma forward_Ok_dict (d : gmap string R) :
  forward self cls_output reg_output cls_target reg_target anchor_states
  = Ok d →
  ∃ rg,
    reg_loss_value self reg_output reg_target anchor_states = Ok rg
    ∧ ((use_bg_predictor self = false
        ∧ ∃ cl,
            cls_loss_value_no_bg self cls_output cls_target anchor_states
            = Ok cl
            ∧ d = losses_read None cl rg)
       ∨ (use_bg_predictor self = true
          ∧ ∃ bg cl,
              bg_loss_value self cls_output anchor_states = Ok bg
              ∧ cls_loss_value_bg self cls_output cls_target anchor_states
                = Ok cl
              ∧ d = losses_read (Some bg) cl rg)).
Proof.
  intros Hd. destruct (forward_Ok_inv _ Hd) as (H1 & H2 & H3 & H4 & Hne).
  destruct (use_bg_predictor self) eqn:Hbg.
  - rewrite forward_with_bg in Hd by auto. bind_inv Hd. simplify_eq.
    eexists. split; [done|]. right. split; [done|]. by eexists _, _.
  - rewrite forward_without_bg in Hd by done. bind_inv Hd. simplify_eq.
    eexists. split; [done|]. left. split; [done|]. by eexists.
Qed.

Lemma forward_Raise_inv (e : exn) :
  forward self cls_output reg_output cls_target reg_target anchor_states
  = Raise e →
  e = IndexError
  ∨ (∃ input target, cls_loss_fn self input target = Raise e)
  ∨ (∃ input target, reg_loss_fn self input target = Raise e).
Proof.
  intros He. destruct (use_bg_predictor self) eqn:Hbg.
  - rewrite forward_steps_with_bg in He by done.
    repeat match type of He with
    | context [mbind _ ?m] =>
        lazymatch m with
        | Ok _ => fail
        | Raise _ => fail
        | context [mbind _ _] => fail
        | _ => let E := fresh "E" in
               destruct m eqn:E; csimpl in He;
               [|simplify_eq;
                 first [ left; by eauto using index_mask_error, last_channel_error
                       | right; left; by eauto
                       | right; right; by eauto ]]
        end
    end.
    done.
  - rewrite forward_steps_without_bg in He by done.
    repeat match type of He with
    | context [mbind _ ?m] =>
        lazymatch m with
        | Ok _ => fail
        | Raise _ => fail
        | context [mbind _ _] => fail
        | _ => let E := fresh "E" in
               destruct m eqn:E; csimpl in He;
               [|simplify_eq;
                 first [ left; by eauto using index_mask_error, last_channel_error
                       | right; left; by eauto
                       | right; right; by eauto ]]
        end
    end.
    done.
Qed.
End Outcomes.

(** X1.  forward returns a dict exactly when the two leading dimensions
    of the four tensors are the shape of [anchor_states], with a
    background predictor the class axis is not empty, and every loss
    module returns on the rows it is called on. *)
Theorem forward_returns_iff_well_shaped (self : ComputeLosses.t)
    (cls_output reg_output cls_target reg_target : list (list (list R)))
    (anchor_states : list (list Z)) :
  (∃ d, ComputeLosses.forward self cls_output reg_output cls_target reg_target
          anchor_states = Ok d)
  ↔ same_shape anchor_states cls_output
    ∧ same_shape anchor_states cls_target
    ∧ same_shape anchor_states reg_output
    ∧ same_shape anchor_states reg_target
    ∧ (∃ rg, reg_loss_value self reg_output reg_target anchor_states = Ok rg)
    ∧ (if ComputeLosses.use_bg_predictor self
       then Forall (Forall (λ row, row ≠ [])) cls_output
            ∧ (∃ bg, bg_loss_value self cls_output anchor_states = Ok bg)
            ∧ (∃ cl, cls_loss_value_bg self cls_output cls_target anchor_states
                     = Ok cl)
       else ∃ cl, cls_loss_value_no_bg self cls_output cls_target anchor_states
                  = Ok cl).
Proof.
  split.
  - intros [d Hd].
    destruct (forward_Ok_inv _ _ _ _ _ _ _ Hd) as (H1 & H2 & H3 & H4 & Hne).
    do 4 (split; [done|]).
    destruct (forward_Ok_dict _ _ _ _ _ _ _ Hd)
      as (rg & Hrg & [(Hbg & cl & Hcl & _)|(Hbg & bg & cl & Hb & Hcl & _)]);
      rewrite Hbg; eauto 10.
  - intros (H1 & H2 & H3 & H4 & [rg Hrg] & Hcls).
    destruct (ComputeLosses.use_bg_predictor self) eqn:Hbg.
    + destruct Hcls as (Hne & [bg Hb] & [cl Hcl]).
      rewrite forward_with_bg, Hb, Hcl, Hrg by done. by eexists.
    + destruct Hcls as [cl Hcl].
      rewrite forward_without_bg, Hcl, Hrg by done. by eexists.
Qed.

(** X2.  forward raises nothing of its own but IndexError: any other
    exception is one a loss module raised; the dict lookups it makes
    always find their key. *)
Theorem forward_raises_IndexError_or_of_loss_module (self : ComputeLosses.t)
    (cls_output reg_output cls_target reg_target : list (list (list R)))
    (anchor_states : list (list Z)) (e : exn) :
  ComputeLosses.forward self cls_output reg_output cls_target reg_target
    anchor_states = Raise e →
  e = IndexError
  ∨ (∃ input target, ComputeLosses.cls_loss_fn self input target = Raise e)
  ∨ (∃ input target, ComputeLosses.reg_loss_fn self input target = Raise e).
Proof. apply forward_Raise_inv. Qed.

Lemma forward_raises_IndexError_or_of_loss_module_witness :
  let refuse : loss_fn := λ input target, Raise TypeError in
  let self := ComputeLosses.Build 1 false refuse refuse in
  ComputeLosses.forward self [[[1; 0]]]%R [[[0; 0; 0; 0]]]%R [[[1; 0]]]%R
    [[[0; 0; 0; 0]]]%R [[0]]%Z = Raise TypeError
  ∧ (TypeError = IndexError
     ∨ (∃ input target, ComputeLosses.cls_loss_fn self input target
                        = Raise TypeError)
     ∨ (∃ input target, ComputeLosses.reg_loss_fn self input target
                        = Raise TypeError)).
Proof.
  intros refuse self. split; [reflexivity|].
  apply (forward_raises_IndexError_or_of_loss_module self [[[1; 0]]]%R
           [[[0; 0; 0; 0]]]%R [[[1; 0]]]%R [[[0; 0; 0; 0]]]%R [[0]]%Z).
  reflexivity.
Defined.

(** X3.  The dict forward returns has the keys cls_loss, reg_loss and
    total_loss, and bg_loss exactly when the module has a background
    predictor. *)
Theorem forward_reports_named_losses (self : ComputeLosses.t)
    (cls_output reg_output cls_target reg_target : list (list (list R)))
    (anchor_states : list (list Z)) (d : gmap string R) :
  ComputeLosses.forward self cls_output reg_output cls_target reg_target
    anchor_states = Ok d →
  dom d
  = {["cls_loss"; "reg_loss"; "total_loss"]}
      ∪ (if ComputeLosses.use_bg_predictor self then {["bg_loss"]} else ∅).
Proof.
  intros Hd.
  destruct (forward_Ok_dict _ _ _ _ _ _ _ Hd)
    as (rg & _ & [(-> & cl & _ & ->)|(-> & bg & cl & _ & _ & ->)]);
    unfold losses_read; rewrite !dom_insert_L, dom_empty_L; set_solver.
Qed.

(** X4.  With a background predictor the total forward reports is the
    plain sum of the three other losses it reports.  Without one the
    dict holds one tensor under [cls_loss] and [total_loss]: the two
    entries are equal, and they are the value of the classification
    loss plus the regression loss reported.  The regression weight
    enters neither. *)
Theorem total_loss_against_reported_losses (self : ComputeLosses.t)
    (cls_output reg_output cls_target reg_target : list (list (list R)))
    (anchor_states : list (list Z)) (d : gmap string R) :
  ComputeLosses.forward self cls_output reg_output cls_target reg_target
    anchor_states = Ok d →
  ∃ rg,
    d !! "reg_loss" = Some rg
    ∧ if ComputeLosses.use_bg_predictor self
      then ∃ bg cl,
             d !! "bg_loss" = Some bg
             ∧ d !! "cls_loss" = Some cl
             ∧ d !! "total_loss" = Some (bg + cl + rg)%R
      else ∃ cl,
             cls_loss_value_no_bg self cls_output cls_target anchor_states
             = Ok cl
             ∧ d !! "cls_loss" = Some (cl + rg)%R
             ∧ d !! "total_loss" = Some (cl + rg)%R.
Proof.
  intros Hd.
  destruct (forward_Ok_dict _ _ _ _ _ _ _ Hd)
    as (rg & _ & [(-> & cl & Hcl & ->)|(-> & bg & cl & _ & _ & ->)]);
    exists rg; unfold losses_read.
  - split; [by simplify_map_eq|]. exists cl. by simplify_map_eq.
  - split; [by simplify_map_eq|]. exists bg, cl. by simplify_map_eq.
Qed.

(** A classification loss that takes a bool target: the number of
    entries of its target. *)
Lemma forward_reports_named_losses_witness :
  let count : loss_fn := λ input target,
    match target with
    | BoolVec b => Ok (INR (length b))
    | Mat m => Ok (INR (length m))
    | Vec v => Ok (INR (length v))
    end in
  let self := ComputeLosses.Build 1 true count count in
  ∃ d,
    ComputeLosses.forward self [[[1; 0; 0]; [0; 1; 1]]]%R
      [[[1; 0; 0; 0]; [0; 1; 0; 0]]]%R [[[1; 0]; [0; 0]]]%R
      [[[1; 0; 0; 0]; [0; 0; 0; 0]]]%R [[1; 0]]%Z = Ok d
    ∧ dom d = {["cls_loss"; "reg_loss"; "total_loss"]} ∪ {["bg_loss"]}.
Proof.
  intros count self. eexists. split; [reflexivity|].
  apply (forward_reports_named_losses self [[[1; 0; 0]; [0; 1; 1]]]%R
           [[[1; 0; 0; 0]; [0; 1; 0; 0]]]%R [[[1; 0]; [0; 0]]]%R
           [[[1; 0; 0; 0]; [0; 0; 0; 0]]]%R [[1; 0]]%Z).
  reflexivity.
Defined.

Lemma total_loss_against_reported_losses_witness :
  let self := ComputeLosses.Build 2 false
                (Modules.SmoothL1Loss false 0.11)
                (Modules.SmoothL1Loss false 0.11) in
  ∃ d rg,
    ComputeLosses.forward self [[[0]]]%R [[[1; 0; 0; 0]]]%R [[[0]]]%R
      [[[0; 0; 0; 0]]]%R [[-1]]%Z = Ok d
    ∧ d !! "reg_loss" = Some rg
    ∧ ∃ cl,
        cls_loss_value_no_bg self [[[0]]]%R [[[0]]]%R [[-1]]%Z = Ok cl
        ∧ d !! "cls_loss" = Some (cl + rg)%R
        ∧ d !! "total_loss" = Some (cl + rg)%R.
Proof.
  intros self. eexists.
  destruct (total_loss_against_reported_losses self [[[0]]]%R
              [[[1; 0; 0; 0]]]%R [[[0]]]%R [[[0; 0; 0; 0]]]%R [[-1]]%Z _ eq_refl)
    as (rg & Hrg & Hcl).
  exists rg. split; [reflexivity|]. split; [exact Hrg|exact Hcl].
Defined.

Lemma Forall3_weaken {A B C} (P Q : A → B → C → Prop) l k m :
  (∀ x y z, P x y z → Q x y z) → Forall3 P l k m → Forall3 Q l k m.
Proof. intros HPQ. induction 1; constructor; auto. Qed.

Lemma anchors_where_ext {A} (P Q : Z → Prop) `{∀ s, Decision (P s)}
    `{∀ s, Decision (Q s)} (states : list (list Z)) (t : list (list A)) :
  (∀ s, P s ↔ Q s) → anchors_where P states t = anchors_where Q states t.
Proof.
  intros HPQ. unfold anchors_where. f_equal.
  apply list_filter_iff. intros [s x]. simpl. apply HPQ.
Qed.

(** X5.  The regression rows of positive anchors never reach the
    result: two calls that differ only in the predicted and target
    regression rows at positive anchors give the same result. *)
Theorem forward_blind_to_positive_regression_rows (self : ComputeLosses.t)
    (cls_output cls_target : list (list (list R)))
    (reg_output reg_output' reg_target reg_target' : list (list (list R)))
    (anchor_states : list (list Z)) :
  Forall3 (Forall3 (λ s x y, ¬ positive s → x = y))
    anchor_states reg_output reg_output' →
  Forall3 (Forall3 (λ s x y, ¬ positive s → x = y))
    anchor_states reg_target reg_target' →
  ComputeLosses.forward self cls_output reg_output cls_target reg_target
    anchor_states
  = ComputeLosses.forward self cls_output reg_output' cls_target reg_target'
      anchor_states.
Proof.
  intros Ho Ht.
  destruct (agree_same_shape _ _ _ _ Ho) as [H1 H1'].
  destruct (agree_same_shape _ _ _ _ Ht) as [H2 H2'].
  destruct (ComputeLosses.use_bg_predictor self) eqn:Hbg.
  - rewrite !forward_steps_with_bg by done.
    rewrite !(index_mask_ne 1 _ reg_output), !(index_mask_ne 1 _ reg_output'),
      !(index_mask_ne 1 _ reg_target), !(index_mask_ne 1 _ reg_target') by done.
    by rewrite (anchors_where_agree _ _ _ _ Ho), (anchors_where_agree _ _ _ _ Ht).
  - rewrite !forward_steps_without_bg by done.
    rewrite !(index_mask_ne 1) by done.
    by rewrite (anchors_where_agree _ _ _ _ Ho), (anchors_where_agree _ _ _ _ Ht).
Qed.

Lemma forward_blind_to_positive_regression_rows_witness :
  let self := ComputeLosses.Build 1 false
                (Modules.SmoothL1Loss false 1) (Modules.SmoothL1Loss false 1) in
  ComputeLosses.forward self [[[1; 0]; [0; 1]]]%R
    [[[1; 0; 0; 0]; [0; 1; 0; 0]]]%R [[[1; 0]; [0; 0]]]%R
    [[[1; 0; 0; 0]; [0; 0; 0; 0]]]%R [[1; 0]]%Z
  = ComputeLosses.forward self [[[1; 0]; [0; 1]]]%R
      [[[7; 7; 7; 7]; [0; 1; 0; 0]]]%R [[[1; 0]; [0; 0]]]%R
      [[[9; 9; 9; 9]; [0; 0; 0; 0]]]%R [[1; 0]]%Z.
Proof.
  intros self.
  apply forward_blind_to_positive_regression_rows;
    repeat constructor; intros Hs; by destruct Hs.
Defined.

(** X6.  Ignored anchors reach no classification term: two calls that
    differ only in the prediction and target classification rows at
    ignored anchors give the same result, with or without a background
    predictor (with one, the class axis of both predictions is assumed
    not empty). *)
Theorem forward_blind_to_ignored_classification_rows (self : ComputeLosses.t)
    (cls_output cls_output' cls_target cls_target' : list (list (list R)))
    (reg_output reg_target : list (list (list R)))
    (anchor_states : list (list Z)) :
  Forall3 (Forall3 (λ s x y, ¬ ignore s → x = y))
    anchor_states cls_output cls_output' →
  Forall3 (Forall3 (λ s x y, ¬ ignore s → x = y))
    anchor_states cls_target cls_target' →
  (ComputeLosses.use_bg_predictor self = true →
   Forall (Forall (λ row, row ≠ [])) cls_output
   ∧ Forall (Forall (λ row, row ≠ [])) cls_output') →
  ComputeLosses.forward self cls_output reg_output cls_target reg_target
    anchor_states
  = ComputeLosses.forward self cls_output' reg_output cls_target' reg_target
      anchor_states.
Proof.
  intros Ho Ht Hne.
  destruct (agree_same_shape _ _ _ _ Ho) as [H1 H1'].
  destruct (agree_same_shape _ _ _ _ Ht) as [H2 H2'].
  assert (∀ A (t t' : list (list A)),
            Forall3 (Forall3 (λ s x y, ¬ ignore s → x = y)) anchor_states t t' →
            Forall3 (Forall3 (λ s x y, s = 1%Z → x = y)) anchor_states t t')
    as Hpos.
  { intros A t t' Hagree.
    eapply Forall3_weaken; [|exact Hagree]. intros s r r' Hrow. simpl in *.
    eapply Forall3_weaken; [|exact Hrow]. intros z x y Hxy Hz. simpl in *.
    apply Hxy. unfold ignore. lia. }
  destruct (ComputeLosses.use_bg_predictor self) eqn:Hbg.
  - destruct (Hne eq_refl) as [Hrows Hrows'].
    rewrite !forward_steps_with_bg by done.
    rewrite !last_channel_ok by done. csimpl.
    unfold drop_last_channel.
    rewrite !(index_mask_eq 1) by (done || by apply same_shape_fmap).
    rewrite !(index_mask_ne (-1) _ (_ <$> _)) by (by apply same_shape_fmap).
    rewrite !anchors_where_fmap.
    rewrite (anchors_where_agree _ _ _ _ Ho).
    rewrite (anchors_where_agree _ _ _ _ (Hpos _ _ _ Ho)).
    by rewrite (anchors_where_agree _ _ _ _ (Hpos _ _ _ Ht)).
  - rewrite !forward_steps_without_bg by done.
    rewrite !(index_mask_ne (-1)) by done.
    by rewrite (anchors_where_agree _ _ _ _ Ho), (anchors_where_agree _ _ _ _ Ht).
Qed.

(** A classification loss that takes a bool target. *)
Lemma forward_blind_to_ignored_classification_rows_witness :
  let sums : loss_fn := λ input target,
    match input, target with
    | Vec v, BoolVec b =>
        Ok (foldr Rplus 0 v + INR (length (filter (λ x, x = true) b)))%R
    | Mat m, Mat m' =>
        Ok (foldr Rplus 0 (concat m) - foldr Rplus 0 (concat m'))%R
    | _, _ => Raise RuntimeError
    end in
  let self := ComputeLosses.Build 1 true sums sums in
  ComputeLosses.forward self [[[1; 0; 0]; [0; 1; 1]]]%R
    [[[1; 0; 0; 0]; [0; 1; 0; 0]]]%R [[[1; 0]; [0; 0]]]%R
    [[[1; 0; 0; 0]; [0; 0; 0; 0]]]%R [[1; -1]]%Z
  = ComputeLosses.forward self [[[1; 0; 0]; [5; 5; 5]]]%R
      [[[1; 0; 0; 0]; [0; 1; 0; 0]]]%R [[[1; 0]; [8; 8]]]%R
      [[[1; 0; 0; 0]; [0; 0; 0; 0]]]%R [[1; -1]]%Z.
Proof.
  intros sums self.
  apply forward_blind_to_ignored_classification_rows.
  - repeat constructor; intros Hs; by destruct Hs.
  - repeat constructor; intros Hs; by destruct Hs.
  - intros _. split; repeat constructor; discriminate.
Defined.

(** X23.  With a background predictor the background target reaches
    the classification loss as the bool tensor [anchor_states == 0],
    without a cast: with a loss module that refuses every bool target,
    as [torch.nn.BCELoss] does, forward raises what the module raises
    on every input whose classification tensors are well shaped. *)
Theorem forward_hands_bool_target_to_cls_loss (self : ComputeLosses.t)
    (cls_output reg_output cls_target reg_target : list (list (list R)))
    (anchor_states : list (list Z)) (e : exn) :
  ComputeLosses.use_bg_predictor self = true →
  same_shape anchor_states cls_output →
  same_shape anchor_states cls_target →
  Forall (Forall (λ row, row ≠ [])) cls_output →
  (∀ input b, ComputeLosses.cls_loss_fn self input (BoolVec b) = Raise e) →
  ComputeLosses.forward self cls_output reg_output cls_target reg_target
    anchor_states = Raise e.
Proof.
  intros Hbg H1 H2 Hrows Hrefuse.
  rewrite forward_steps_with_bg by done.
  rewrite last_channel_ok by done. csimpl.
  rewrite (index_mask_eq 1 _ cls_target) by done.
  unfold drop_last_channel.
  rewrite (index_mask_eq 1) by (by apply same_shape_fmap).
  rewrite (index_mask_ne (-1) _ (_ <$> cls_output)) by (by apply same_shape_fmap).
  unfold eq_scalar.
  rewrite (index_mask_ne (-1)) by apply same_shape_self.
  csimpl. by rewrite Hrefuse.
Qed.

Lemma forward_hands_bool_target_to_cls_loss_witness :
  let bce : loss_fn := λ input target,
    match target with
    | BoolVec _ => Raise RuntimeError
    | _ => Ok 0%R
    end in
  let self := ComputeLosses.Build 1 true bce (Modules.SmoothL1Loss false 0.11) in
  ComputeLosses.forward self [[[1; 0; 0]; [0; 1; 1]]]%R
    [[[1; 0; 0; 0]; [0; 1; 0; 0]]]%R [[[1; 0]; [0; 0]]]%R
    [[[1; 0; 0; 0]; [0; 0; 0; 0]]]%R [[1; 0]]%Z
  = Raise RuntimeError.
Proof.
  intros bce self.
  apply forward_hands_bool_target_to_cls_loss;
    [reflexivity | repeat constructor; discriminate .. | reflexivity].
Defined.

(** ** Shapes through the heads *)

Lemma RegressionHead_init_inv (rng : initializer)
    (input_feature_size feature_size num_layers num_anchors : nat)
    (num_classes : option nat) (use_class_specific_bbox : bool)
    (h : RegressionHead.t) :
  RegressionHead.__init__ rng input_feature_size feature_size num_layers
    num_anchors num_classes use_class_specific_bbox = Ok h →
  h = RegressionHead.Build (RegressionHead.total_num_bbox h)
        (conv_head rng input_feature_size feature_size num_layers
           ++ [Conv (Conv2d.__init__ rng num_layers
                       (if decide (num_layers = 0) then input_feature_size
                        else feature_size)
                       (num_anchors * RegressionHead.total_num_bbox h) 1 0)]).
Proof.
  unfold RegressionHead.__init__. intros Hinit.
  destruct (if use_class_specific_bbox then _ else _) as [tb|]; [|done].
  csimpl in Hinit. by simplify_eq.
Qed.

(** X9.  RegressionHead.forward accepts every batch of at least one
    image of [input_feature_size] channels of [H > 0] by [W > 0] cells,
    keeps the batch size and turns every image into
    [H * W * num_anchors] rows of [total_num_bbox] offsets, whatever the
    weights. *)
Theorem regression_head_output_shape
    (rng : initializer)
    (input_feature_size feature_size num_layers num_anchors : nat)
    (num_classes : option nat) (use_class_specific_bbox : bool)
    (h : RegressionHead.t) (x : list (list (list (list R)))) (H W : nat) :
  RegressionHead.__init__ rng input_feature_size feature_size num_layers
    num_anchors num_classes use_class_specific_bbox = Ok h →
  x ≠ [] → batch_of input_feature_size H W x →
  0 < input_feature_size → 0 < H → 0 < W →
  (0 < num_layers → 0 < feature_size) →
  0 < num_anchors → 0 < RegressionHead.total_num_bbox h →
  ∃ out,
    RegressionHead.forward h x = Ok out
    ∧ length out = length x
    ∧ Forall (λ rows, length rows = H * W * num_anchors
                      ∧ Forall (λ r, length r = RegressionHead.total_num_bbox h)
                          rows) out.
Proof.
  intros Hinit Hne Hx Hifs HH HW Hfs HA Hbbox.
  apply RegressionHead_init_inv in Hinit.
  set (tb := RegressionHead.total_num_bbox h) in *. rewrite Hinit.
  unfold RegressionHead.forward.
  cbn [RegressionHead.head RegressionHead.total_num_bbox].
  destruct (trunk_ok rng input_feature_size feature_size num_layers H W x)
    as (t & Ht & Hshape & Hlen); [done..|].
  set (cin := if decide (num_layers = 0) then input_feature_size
              else feature_size) in *.
  assert (0 < cin) as Hcin.
  { unfold cin. destruct (decide (num_layers = 0)); [done|]. apply Hfs. lia. }
  rewrite Sequential_snoc, Ht. csimpl.
  rewrite Conv2d_forward_ok
    by (apply (accepts_batch _ cin H W); simpl; (done || lia)).
  csimpl.
  assert (batch_of (num_anchors * tb) H W
            (Conv2d.forward_image
               (Conv2d.__init__ rng num_layers cin (num_anchors * tb) 1 0)
             <$> t)) as Hout.
  { apply (batch_of_conv _ cin); try done.
    - simpl. by rewrite length_fmap, length_seq.
    - simpl. by rewrite length_fmap, length_seq.
    - intros m. unfold Conv2d.out_size. simpl. lia. }
  rewrite (permute_reshape_ok tb num_anchors).
  - eexists. split; [done|].
    rewrite to_anchor_rows_length, length_fmap. split; [done|].
    by apply to_anchor_rows_shape.
  - destruct t; [|done]. by destruct x.
  - done.
  - eapply Forall_impl; [exact Hout|]. by intros img [Hl _].
Qed.

Lemma regression_head_output_shape_witness :
  let rng := {| draw_weight := λ _ _ _ _ _, 1%R; draw_bias := λ _ _, 1%R |} in
  let x := [[[[1; 2]; [3; 4]]]]%R in
  ∃ h out,
    RegressionHead.__init__ rng 1 2 1 3 None false = Ok h
    ∧ RegressionHead.forward h x = Ok out
    ∧ length out = length x
    ∧ Forall (λ rows, length rows = 2 * 2 * 3
                      ∧ Forall (λ r, length r = RegressionHead.total_num_bbox h)
                          rows) out.
Proof.
  intros rng x. eexists.
  destruct (regression_head_output_shape rng 1 2 1 3 None false _ x 2 2
              eq_refl) as (out & Hout);
    [discriminate | repeat constructor | simpl; lia ..|].
  exists out. split; [reflexivity|exact Hout].
Defined.

(** X10.  ClassificationHead.forward accepts every batch of at least
    one image of [input_feature_size] channels of [H > 0] by [W > 0]
    cells, keeps the batch size and turns every image into
    [H * W * num_anchors] rows of [total_num_classes] scores. *)
Theorem classification_head_output_shape
    (rng : initializer)
    (input_feature_size feature_size num_layers num_anchors num_classes : nat)
    (use_bg_predictor : bool) (p : R)
    (x : list (list (list (list R)))) (H W : nat) :
  (0 < p < 1)%R →
  x ≠ [] → batch_of input_feature_size H W x →
  0 < input_feature_size → 0 < H → 0 < W →
  (0 < num_layers → 0 < feature_size) →
  0 < num_anchors →
  0 < (if use_bg_predictor then num_classes + 1 else num_classes) →
  ∃ h out,
    ClassificationHead.__init__ rng input_feature_size feature_size num_layers
      num_anchors num_classes use_bg_predictor p = Ok h
    ∧ ClassificationHead.forward h x = Ok out
    ∧ length out = length x
    ∧ Forall (λ rows, length rows = H * W * num_anchors
                      ∧ Forall (λ r, length r
                                     = ClassificationHead.total_num_classes h)
                          rows) out.
Proof.
  intros Hp Hne Hx Hifs HH HW Hfs HA Hclasses.
  rewrite ClassificationHead_init_ok by done.
  destruct (classifier_lengths rng input_feature_size feature_size num_layers
              num_anchors num_classes use_bg_predictor (- ln ((1 - p) / p)))
    as [Hw Hb].
  cbv zeta in Hw, Hb.
  set (total := if use_bg_predictor then num_classes + 1 else num_classes) in *.
  set (cin := if decide (num_layers = 0) then input_feature_size
              else feature_size) in *.
  set (c := Conv2d.Build cin _ _ 1 0) in *.
  assert (0 < cin) as Hcin.
  { unfold cin. destruct (decide (num_layers = 0)); [done|]. apply Hfs. lia. }
  destruct (trunk_ok rng input_feature_size feature_size num_layers H W x)
    as (t & Ht & Hshape & Hlen); [done..|]. fold cin in Hshape.
  assert (batch_of (num_anchors * total) H W
            (map4 sigmoid (Conv2d.forward_image c <$> t))) as Hout.
  { apply batch_of_map4, (batch_of_conv c cin); try done; try lia.
    intros m. unfold Conv2d.out_size. simpl. lia. }
  eexists _, (to_anchor_rows total (map4 sigmoid (Conv2d.forward_image c <$> t))).
  split; [done|]. split.
  - unfold ClassificationHead.forward.
    cbn [ClassificationHead.head ClassificationHead.total_num_classes].
    rewrite !Sequential_snoc, Ht. csimpl.
    rewrite Conv2d_forward_ok
      by (apply (accepts_batch c cin H W); simpl; (done || lia)).
    csimpl. apply (permute_reshape_ok total num_anchors); [|done|].
    + unfold map4. destruct t; [|done]. by destruct x.
    + eapply Forall_impl; [exact Hout|]. by intros img [Hl _].
  - rewrite to_anchor_rows_length. unfold map4. rewrite !length_fmap.
    split; [done|]. by apply to_anchor_rows_shape.
Qed.

Lemma classification_head_output_shape_witness :
  let rng := {| draw_weight := λ _ _ _ _ _, 1%R; draw_bias := λ _ _, 1%R |} in
  let x := [[[[1; 2]; [3; 4]]]]%R in
  ∃ h out,
    ClassificationHead.__init__ rng 1 2 1 3 2 true 0.01 = Ok h
    ∧ ClassificationHead.forward h x = Ok out
    ∧ length out = length x
    ∧ Forall (λ rows, length rows = 2 * 2 * 3
                      ∧ Forall (λ r, length r
                                     = ClassificationHead.total_num_classes h)
                          rows) out.
Proof.
  intros rng x.
  apply (classification_head_output_shape rng 1 2 1 3 2 true 0.01 x 2 2);
    [lra | discriminate | repeat constructor | simpl; lia ..].
Defined.

(** X11.  CombinedHead.forward accepts every batch of at least one
    image of [input_feature_size] channels of [H > 0] by [W > 0] cells
    and returns two outputs of the batch's size that are aligned anchor
    by anchor: for every image both have [H * W * num_anchors] rows, of
    [total_num_classes] scores and of [total_num_bbox] offsets. *)
Theorem combined_head_outputs_aligned
    (rng : initializer)
    (input_feature_size feature_size num_layers num_anchors num_classes : nat)
    (use_class_specific_bbox use_bg_predictor : bool) (p : R)
    (x : list (list (list (list R)))) (H W : nat) :
  (0 < p < 1)%R →
  x ≠ [] → batch_of input_feature_size H W x →
  0 < input_feature_size → 0 < H → 0 < W →
  (0 < num_layers → 0 < feature_size) →
  0 < num_anchors →
  0 < (if use_bg_predictor then num_classes + 1 else num_classes) →
  0 < (if use_class_specific_bbox then 4 * num_classes else 4) →
  ∃ h cls reg,
    CombinedHead.__init__ rng input_feature_size feature_size num_layers
      num_anchors (Some num_classes) use_class_specific_bbox use_bg_predictor p
    = Ok h
    ∧ CombinedHead.forward h x = Ok (cls, reg)
    ∧ length cls = length x
    ∧ length reg = length x
    ∧ Forall (λ rows, length rows = H * W * num_anchors
                      ∧ Forall (λ r, length r = CombinedHead.total_num_classes h)
                          rows) cls
    ∧ Forall (λ rows, length rows = H * W * num_anchors
                      ∧ Forall (λ r, length r = CombinedHead.total_num_bbox h)
                          rows) reg.
Proof.
  intros Hp Hne Hx Hifs HH HW Hfs HA Hclasses Hbbox.
  rewrite CombinedHead_init_ok by done.
  pose proof (initialized_weight_length rng input_feature_size feature_size
                num_layers num_anchors num_classes use_class_specific_bbox
                use_bg_predictor p) as Hw.
  pose proof (initialized_bias_length rng input_feature_size feature_size
                num_layers num_anchors num_classes use_class_specific_bbox
                use_bg_predictor p) as Hbias.
  cbv zeta in Hw, Hbias.
  set (classes := if use_bg_predictor then num_classes + 1 else num_classes) in *.
  set (bbox := if use_class_specific_bbox then 4 * num_classes else 4) in *.
  set (cin := if decide (num_layers = 0) then input_feature_size
              else feature_size) in *.
  set (c := Conv2d.Build cin _ _ 1 0) in *.
  assert (0 < cin) as Hcin.
  { unfold cin. destruct (decide (num_layers = 0)); [done|]. apply Hfs. lia. }
  destruct (trunk_ok rng input_feature_size feature_size num_layers H W x)
    as (t & Ht & Hshape & Hlen); [done..|]. fold cin in Hshape.
  assert (batch_of (num_anchors * (classes + bbox)) H W
            (Conv2d.forward_image c <$> t)) as Hout.
  { apply (batch_of_conv c cin); try done.
    intros m. unfold Conv2d.out_size. simpl. lia. }
  set (y := Conv2d.forward_image c <$> t) in *.
  assert (y ≠ []) as Hy.
  { unfold y. destruct t; [|done]. by destruct x. }
  assert (batch_of (num_anchors * classes) H W
            ((λ img : list (list (list R)), take (num_anchors * classes) img)
               <$> y)) as Hcls.
  { apply Forall_fmap. eapply Forall_impl; [exact Hout|].
    intros img [Hl Hr]. simpl. split; [|by apply rect_take].
    rewrite length_take, Hl. lia. }
  assert (batch_of (num_anchors * bbox) H W
            ((λ img : list (list (list R)), drop (num_anchors * classes) img)
               <$> y)) as Hreg.
  { apply Forall_fmap. eapply Forall_impl; [exact Hout|].
    intros img [Hl Hr]. simpl. split; [|by apply rect_drop].
    rewrite length_drop, Hl. lia. }
  eexists _, _, _. split; [done|]. split.
  - unfold CombinedHead.forward.
    cbn [CombinedHead.head CombinedHead.split_point
         CombinedHead.total_num_classes CombinedHead.total_num_bbox].
    rewrite Sequential_snoc, Ht. csimpl.
    rewrite Conv2d_forward_ok
      by (apply (accepts_batch c cin H W); simpl; (done || lia)).
    csimpl. fold y.
    rewrite (permute_reshape_ok classes num_anchors);
      [|by destruct y|done
       |eapply Forall_impl; [exact Hcls|]; by intros img [Hl _]].
    csimpl.
    rewrite (permute_reshape_ok bbox num_anchors);
      [|by destruct y|done
       |eapply Forall_impl; [exact Hreg|]; by intros img [Hl _]].
    csimpl. done.
  - cbn [CombinedHead.total_num_classes CombinedHead.total_num_bbox].
    rewrite length_fmap, !to_anchor_rows_length, !length_fmap.
    unfold y. rewrite length_fmap.
    do 2 (split; [done|]). split; [|by apply to_anchor_rows_shape].
    apply Forall_fmap.
    eapply Forall_impl; [exact (to_anchor_rows_shape _ _ _ _ _ Hcls Hclasses)|].
    intros rows [Hl Hrows]. simpl. rewrite length_fmap. split; [done|].
    apply Forall_fmap. eapply Forall_impl; [exact Hrows|].
    intros r Hr. simpl. by rewrite length_fmap.
Qed.

Lemma combined_head_outputs_aligned_witness :
  let rng := {| draw_weight := λ _ _ _ _ _, 1%R; draw_bias := λ _ _, 1%R |} in
  let x := [[[[1; 2]; [3; 4]]]]%R in
  ∃ h cls reg,
    CombinedHead.__init__ rng 1 2 1 3 (Some 2) false true 0.01 = Ok h
    ∧ CombinedHead.forward h x = Ok (cls, reg)
    ∧ length cls = length x
    ∧ length reg = length x
    ∧ Forall (λ rows, length rows = 2 * 2 * 3
                      ∧ Forall (λ r, length r = CombinedHead.total_num_classes h)
                          rows) cls
    ∧ Forall (λ rows, length rows = 2 * 2 * 3
                      ∧ Forall (λ r, length r = CombinedHead.total_num_bbox h)
                          rows) reg.
Proof.
  intros rng x.
  apply (combined_head_outputs_aligned rng 1 2 1 3 2 false true 0.01 x 2 2);
    [lra | discriminate | repeat constructor | simpl; lia ..].
Defined.

(** ** Row order of the two single-purpose heads *)

(** X12.  RegressionHead.forward lists the offsets cell by cell in
    row-major order and, within a cell, anchor by anchor: when the
    layers return [y], forward returns, and entry [k] of row
    [(i * W + j) * num_anchors + a] of image [b] is channel
    [a * total_num_bbox + k] of [y] at cell (i, j) of that image. *)
Theorem regression_head_row_order
    (rng : initializer)
    (input_feature_size feature_size num_layers num_anchors : nat)
    (num_classes : option nat) (use_class_specific_bbox : bool)
    (h : RegressionHead.t) (x y : list (list (list (list R))))
    (b : nat) (y_b : list (list (list R))) (i j a k : nat) :
  RegressionHead.__init__ rng input_feature_size feature_size num_layers
    num_anchors num_classes use_class_specific_bbox = Ok h →
  Sequential (RegressionHead.head h) x = Ok y →
  y !! b = Some y_b →
  i < height y_b → j < width y_b → a < num_anchors →
  k < RegressionHead.total_num_bbox h →
  ∃ out,
    RegressionHead.forward h x = Ok out
    ∧ entry out b ((i * width y_b + j) * num_anchors + a) k
      = Some (pixel y_b (a * RegressionHead.total_num_bbox h + k) i j).
Proof.
  intros Hinit Hy Hb Hi Hj Ha Hk.
  apply RegressionHead_init_inv in Hinit.
  set (tb := RegressionHead.total_num_bbox h) in *.
  unfold RegressionHead.forward. rewrite Hy. csimpl. fold tb.
  rewrite Hinit in Hy. cbn [RegressionHead.head] in Hy.
  rewrite Sequential_snoc in Hy.
  destruct (Sequential _ x) as [t|]; [|done]. csimpl in Hy.
  apply Conv2d_forward_inv in Hy as [_ ->].
  assert (Forall (λ img, length img = num_anchors * tb)
            (Conv2d.forward_image
               (Conv2d.__init__ rng num_layers
                  (if decide (num_layers = 0) then input_feature_size
                   else feature_size) (num_anchors * tb) 1 0) <$> t)) as Hlen.
  { apply Forall_fmap, Forall_forall. intros img _. simpl.
    rewrite forward_image_length. simpl.
    rewrite !length_fmap, !length_seq. lia. }
  rewrite (permute_reshape_ok tb num_anchors);
    [|intros Hnil; by rewrite Hnil in Hb|lia|done].
  eexists. split; [done|].
  apply to_anchor_rows_entry; [done| |done..].
  exact (Forall_lookup_1 _ _ _ _ Hlen Hb).
Qed.

Lemma regression_head_row_order_witness :
  let rng := {| draw_weight := λ _ _ _ _ _, 1%R; draw_bias := λ _ _, 1%R |} in
  let x := [[[[1; 2]; [3; 4]]]]%R in
  ∃ h y y_b out,
    RegressionHead.__init__ rng 1 2 0 3 None false = Ok h
    ∧ Sequential (RegressionHead.head h) x = Ok y
    ∧ y !! 0 = Some y_b
    ∧ RegressionHead.forward h x = Ok out
    ∧ entry out 0 ((1 * width y_b + 0) * 3 + 2) 1
      = Some (pixel y_b (2 * RegressionHead.total_num_bbox h + 1) 1 0).
Proof.
  intros rng x. eexists _, _, _.
  destruct (regression_head_row_order rng 1 2 0 3 None false _ x _ 0 _ 1 0 2 1
              eq_refl eq_refl eq_refl) as (out & Hout & Hentry);
    [unfold height; simpl; lia | unfold width; simpl; lia | lia | simpl; lia |].
  exists out. split; [reflexivity|]. split; [reflexivity|].
  split; [reflexivity|]. split; [exact Hout|exact Hentry].
Defined.

(** X13.  ClassificationHead.forward lists the scores in the same
    order: when the layers return [z], the output of the sigmoid,
    forward returns, and entry [k] of row
    [(i * W + j) * num_anchors + a] of image [b] is channel
    [a * total_num_classes + k] of [z] at cell (i, j) of that image. *)
Theorem classification_head_row_order
    (rng : initializer)
    (input_feature_size feature_size num_layers num_anchors num_classes : nat)
    (use_bg_predictor : bool) (p : R)
    (h : ClassificationHead.t) (x z : list (list (list (list R))))
    (b : nat) (z_b : list (list (list R))) (i j a k : nat) :
  ClassificationHead.__init__ rng input_feature_size feature_size num_layers
    num_anchors num_classes use_bg_predictor p = Ok h →
  Sequential (ClassificationHead.head h) x = Ok z →
  z !! b = Some z_b →
  i < height z_b → j < width z_b → a < num_anchors →
  k < ClassificationHead.total_num_classes h →
  ∃ out,
    ClassificationHead.forward h x = Ok out
    ∧ entry out b ((i * width z_b + j) * num_anchors + a) k
      = Some (pixel z_b (a * ClassificationHead.total_num_classes h + k) i j).
Proof.
  intros Hinit Hz Hb Hi Hj Ha Hk.
  rewrite ClassificationHead_init_cases in Hinit.
  destruct (prior_bias p) as [bias|]; [|done]. csimpl in Hinit. simplify_eq.
  destruct (classifier_lengths rng input_feature_size feature_size num_layers
              num_anchors num_classes use_bg_predictor bias) as [Hw Hbias].
  cbv zeta in Hw, Hbias.
  unfold ClassificationHead.forward.
  cbn [ClassificationHead.head ClassificationHead.total_num_classes] in *.
  set (total := if use_bg_predictor then num_classes + 1 else num_classes) in *.
  set (c := Conv2d.Build _ _ _ 1 0) in *.
  rewrite Hz. csimpl.
  rewrite !Sequential_snoc in Hz.
  destruct (Sequential _ x) as [t|]; [|done]. csimpl in Hz.
  destruct (Conv2d.forward c t) as [y|] eqn:Hy; [|done]. csimpl in Hz.
  simplify_eq. apply Conv2d_forward_inv in Hy as [_ ->].
  assert (Forall (λ img, length img = num_anchors * total)
            (map4 sigmoid (Conv2d.forward_image c <$> t))) as Hlen.
  { unfold map4. rewrite <- list_fmap_compose.
    apply Forall_fmap, Forall_forall. intros img _. simpl.
    rewrite length_fmap, forward_image_length, Hw, Hbias. lia. }
  rewrite (permute_reshape_ok total num_anchors);
    [|intros Hnil; by rewrite Hnil in Hb|lia|done].
  eexists. split; [done|].
  apply to_anchor_rows_entry; [done| |done..].
  exact (Forall_lookup_1 _ _ _ _ Hlen Hb).
Qed.

Lemma classification_head_row_order_witness :
  let rng := {| draw_weight := λ _ _ _ _ _, 1%R; draw_bias := λ _ _, 1%R |} in
  let x := [[[[1; 2]; [3; 4]]]]%R in
  ∃ h z z_b out,
    ClassificationHead.__init__ rng 1 2 0 3 2 false 0.01 = Ok h
    ∧ Sequential (ClassificationHead.head h) x = Ok z
    ∧ z !! 0 = Some z_b
    ∧ ClassificationHead.forward h x = Ok out
    ∧ entry out 0 ((1 * width z_b + 0) * 3 + 2) 1
      = Some (pixel z_b (2 * ClassificationHead.total_num_classes h + 1) 1 0).
Proof.
  intros rng x. eexists _, _, _.
  destruct (classification_head_row_order rng 1 2 0 3 2 false 0.01 _ x _ 0 _
              1 0 2 1 (ClassificationHead_init_ok rng 1 2 0 3 2 false 0.01
                         ltac:(lra)) eq_refl eq_refl)
    as (out & Hout & Hentry);
    [unfold height; simpl; lia | unfold width; simpl; lia | lia | simpl; lia |].
  exists out. split; [apply ClassificationHead_init_ok; lra|].
  split; [reflexivity|]. split; [reflexivity|].
  split; [exact Hout|exact Hentry].
Defined.

(** ** CombinedHead right after construction *)

Section CombinedHeadFresh.
Variable rng : initializer.
Variables input_feature_size feature_size num_layers num_anchors num_classes : nat.
Variables use_class_specific_bbox use_bg_predictor : bool.
Variable p : R.

Let classes : nat := if use_bg_predictor then num_classes + 1 else num_classes.
Let bbox : nat := if use_class_specific_bbox then 4 * num_classes else 4.
Let cin : nat :=
  if decide (num_layers = 0) then input_feature_size else feature_size.
Let created : Conv2d.t :=
  Conv2d.__init__ rng num_layers cin (num_anchors * (classes + bbox)) 1 0.
Let initialized : Conv2d.t :=
  Conv2d.Build cin
    (fill4 0 (take (num_anchors * classes) (Conv2d.weight created))
       ++ drop (num_anchors * classes) (Conv2d.weight created))
    (fill1 (- ln ((1 - p) / p))
       (take (num_anchors * classes) (Conv2d.bias created))
       ++ drop (num_anchors * classes) (Conv2d.bias created))
    1 0.

Lemma created_lengths :
  length (Conv2d.weight created) = num_anchors * (classes + bbox)
  ∧ length (Conv2d.bias created) = num_anchors * (classes + bbox).
Proof. apply Conv2d_init_lengths. Qed.

(** The classification channels of the initialised layer are those of
    a layer with zero weights and the prior bias. *)
Lemma initialized_take (img : list (list (list R))) :
  take (num_anchors * classes) (Conv2d.forward_image initialized img)
  = Conv2d.forward_image
      (Conv2d.Build cin
         (fill4 0 (take (num_anchors * classes) (Conv2d.weight created)))
         (fill1 (- ln ((1 - p) / p))
            (take (num_anchors * classes) (Conv2d.bias created)))
         1 0) img.
Proof.
  destruct created_lengths as [Hw Hb].
  unfold Conv2d.forward_image at 1. rewrite zip_with_take.
  unfold initialized. cbn [Conv2d.weight Conv2d.bias].
  rewrite !take_app_length'; [done|..].
  - unfold fill1. rewrite length_fmap, length_take, Hb. lia.
  - unfold fill4. rewrite length_fmap, length_take, Hw. lia.
Qed.

(** The regression channels of the initialised layer are those of the
    layer as created. *)
Lemma initialized_drop (img : list (list (list R))) :
  drop (num_anchors * classes) (Conv2d.forward_image initialized img)
  = drop (num_anchors * classes) (Conv2d.forward_image created img).
Proof.
  destruct created_lengths as [Hw Hb].
  unfold Conv2d.forward_image. rewrite !zip_with_drop.
  unfold initialized. cbn [Conv2d.weight Conv2d.bias].
  rewrite !drop_app_length'; [done|..].
  - unfold fill1. rewrite length_fmap, length_take, Hb. lia.
  - unfold fill4. rewrite length_fmap, length_take, Hw. lia.
Qed.

(** Both layers give feature maps of one shape. *)
Lemma initialized_numel (s : nat) (img : list (list (list R))) :
  let a := take s (Conv2d.forward_image initialized img) in
  let b := take s (Conv2d.forward_image created img) in
  length a * height a * width a = length b * height b * width b.
Proof.
  intros a b.
  pose proof (initialized_weight_length rng input_feature_size feature_size
                num_layers num_anchors num_classes use_class_specific_bbox
                use_bg_predictor p) as Hw.
  pose proof (initialized_bias_length rng input_feature_size feature_size
                num_layers num_anchors num_classes use_class_specific_bbox
                use_bg_predictor p) as Hb.
  destruct created_lengths as [Hw' Hb'].
  cbv zeta in Hw, Hb. fold classes bbox cin created initialized in Hw, Hb.
  assert (length (Conv2d.forward_image initialized img)
          = length (Conv2d.forward_image created img)) as Hlen
    by (rewrite !forward_image_length; lia).
  assert (length a = length b) as Hab
    by (unfold a, b; by rewrite !length_take, Hlen).
  destruct (decide (length a = 0)) as [Hz|Hnz]; [by rewrite <- Hab, Hz|].
  assert (0 < s) as Hs.
  { destruct s; [|lia]. unfold a in Hnz. by rewrite take_0 in Hnz. }
  assert (Conv2d.forward_image initialized img ≠ []) as Hi.
  { intros Hnil. unfold a in Hnz. by rewrite Hnil, take_nil in Hnz. }
  assert (Conv2d.forward_image created img ≠ []) as Hc.
  { intros Hnil. rewrite Hnil in Hlen. by destruct (Conv2d.forward_image _ _). }
  unfold a, b. rewrite !height_take, !width_take by done.
  fold a b. rewrite Hab.
  pose proof (forward_image_rect initialized img) as Hri.
  pose proof (forward_image_rect created img) as Hrc.
  rewrite (rect_height _ _ _ Hri Hi), (rect_height _ _ _ Hrc Hc).
  change (Conv2d.out_size initialized) with (Conv2d.out_size created) in *.
  destruct (decide (Conv2d.out_size created (height img) = 0)) as [->|Hh];
    [lia|].
  by rewrite (rect_width _ _ _ Hri Hi), (rect_width _ _ _ Hrc Hc) by lia.
Qed.
End CombinedHeadFresh.

(** X14.  Right after construction, whenever the convolution stack
    before the last layer returns a batch [t] of real entries, of at
    least one image of [H > 0] by [W > 0] cells, CombinedHead.forward
    returns, and its classification output has one entry per image, of
    [H * W * num_anchors] rows of [total_num_classes] scores, every one
    of them [sigmoid (-log((1 - p) / p))], whatever the entries of [t]. *)
Theorem combined_head_initial_scores
    (rng : initializer)
    (input_feature_size feature_size num_layers num_anchors num_classes : nat)
    (use_class_specific_bbox use_bg_predictor : bool) (p : R) :
  (0 < p < 1)%R →
  let classes := if use_bg_predictor then num_classes + 1 else num_classes in
  let bbox := if use_class_specific_bbox then 4 * num_classes else 4 in
  let cin :=
    if decide (num_layers = 0) then input_feature_size else feature_size in
  ∃ h,
    CombinedHead.__init__ rng input_feature_size feature_size num_layers
      num_anchors (Some num_classes) use_class_specific_bbox use_bg_predictor p
    = Ok h
    ∧ ∀ x t H W,
        Sequential (conv_head rng input_feature_size feature_size num_layers) x
        = Ok t →
        t ≠ [] → batch_of cin H W t →
        0 < cin → 0 < H → 0 < W →
        0 < classes → 0 < bbox → 0 < num_anchors →
        ∃ cls reg,
          CombinedHead.forward h x = Ok (cls, reg)
          ∧ length cls = length x
          ∧ Forall (λ rows, length rows = H * W * num_anchors
                            ∧ Forall (λ r, length r = classes) rows) cls
          ∧ Forall (Forall (Forall (λ v, v = sigmoid (- ln ((1 - p) / p))))) cls.
Proof.
  intros Hp classes bbox cin. rewrite CombinedHead_init_ok by done.
  pose proof (initialized_weight_length rng input_feature_size feature_size
                num_layers num_anchors num_classes use_class_specific_bbox
                use_bg_predictor p) as Hw.
  pose proof (initialized_bias_length rng input_feature_size feature_size
                num_layers num_anchors num_classes use_class_specific_bbox
                use_bg_predictor p) as Hb.
  cbv zeta in Hw, Hb. fold classes bbox cin in Hw, Hb |- *.
  set (c := Conv2d.Build cin _ _ 1 0) in *.
  eexists. split; [done|].
  intros x t H W Ht Hne Hshape Hcin HH HW Hclasses Hbbox HA.
  assert (batch_of (num_anchors * (classes + bbox)) H W
            (Conv2d.forward_image c <$> t)) as Hout.
  { apply (batch_of_conv c cin); try done.
    intros m. unfold Conv2d.out_size. simpl. lia. }
  set (y := Conv2d.forward_image c <$> t) in *.
  assert (y ≠ []) as Hy by (unfold y; by destruct t).
  assert (batch_of (num_anchors * classes) H W
            ((λ img : list (list (list R)), take (num_anchors * classes) img)
               <$> y)) as Hcls.
  { apply Forall_fmap. eapply Forall_impl; [exact Hout|].
    intros img [Hl Hr]. simpl. split; [|by apply rect_take].
    rewrite length_take, Hl. lia. }
  assert (Forall (λ img, length img = num_anchors * bbox)
            ((λ img : list (list (list R)), drop (num_anchors * classes) img)
               <$> y)) as Hreg.
  { apply Forall_fmap. eapply Forall_impl; [exact Hout|].
    intros img [Hl Hr]. simpl. rewrite length_drop, Hl. lia. }
  eexists _, _. split.
  - unfold CombinedHead.forward.
    cbn [CombinedHead.head CombinedHead.split_point
         CombinedHead.total_num_classes CombinedHead.total_num_bbox].
    rewrite Sequential_snoc, Ht. csimpl.
    rewrite Conv2d_forward_ok
      by (apply (accepts_batch c cin H W); simpl; (done || lia)).
    csimpl. fold y.
    rewrite (permute_reshape_ok classes num_anchors);
      [|by destruct y|done
       |eapply Forall_impl; [exact Hcls|]; by intros img [Hl _]].
    csimpl.
    rewrite (permute_reshape_ok bbox num_anchors);
      [|by destruct y|done|done].
    csimpl. done.
  - rewrite length_fmap, to_anchor_rows_length, length_fmap.
    unfold y. rewrite length_fmap, (Sequential_length _ _ _ Ht).
    split; [done|]. split.
    + apply Forall_fmap.
      eapply Forall_impl; [exact (to_anchor_rows_shape _ _ _ _ _ Hcls Hclasses)|].
      intros rows [Hl Hrows]. simpl. rewrite length_fmap. split; [done|].
      apply Forall_fmap. eapply Forall_impl; [exact Hrows|].
      intros r Hr. simpl. by rewrite length_fmap.
    + assert (Forall (Forall (Forall (λ v, v = (- ln ((1 - p) / p))%R)))
                (to_anchor_rows classes
                   ((λ img : list (list (list R)),
                       take (num_anchors * classes) img) <$> y))) as Hconst.
      { apply to_anchor_rows_constant.
        - eapply Forall_impl; [exact Hcls|]. intros img [_ Hr]. by eexists _, _.
        - unfold y. rewrite <- list_fmap_compose.
          apply Forall_fmap, Forall_forall. intros img _. cbv [compose].
          subst c classes bbox cin.
          rewrite (initialized_take rng input_feature_size feature_size
                     num_layers num_anchors num_classes use_class_specific_bbox
                     use_bg_predictor p img).
          apply forward_image_constant; [apply fill4_zero|apply fill1_const]. }
      apply Forall_fmap. eapply Forall_impl; [exact Hconst|].
      intros img Himg. simpl. apply Forall_fmap.
      eapply Forall_impl; [exact Himg|]. intros row Hrow. simpl.
      apply Forall_fmap. eapply Forall_impl; [exact Hrow|].
      by intros v ->.
Qed.

Lemma combined_head_initial_scores_witness :
  let rng := {| draw_weight := λ _ _ _ _ _, 1%R; draw_bias := λ _ _, 1%R |} in
  let x := [[[[1; 2]; [3; 4]]; [[5; 6]; [7; 8]]]]%R in
  ∃ h cls reg,
    CombinedHead.__init__ rng 2 2 1 3 (Some 2) false true 0.01 = Ok h
    ∧ CombinedHead.forward h x = Ok (cls, reg)
    ∧ length cls = length x
    ∧ Forall (λ rows, length rows = 2 * 2 * 3
                      ∧ Forall (λ r, length r = 3) rows) cls
    ∧ Forall (Forall (Forall (λ v, v = sigmoid (- ln ((1 - 0.01) / 0.01))))) cls.
Proof.
  intros rng x.
  destruct (combined_head_initial_scores rng 2 2 1 3 2 false true 0.01)
    as (h & Hinit & Hforward); [lra|].
  destruct (Hforward x _ 2 2 eq_refl) as (cls & reg & Hout);
    [discriminate | repeat constructor | simpl; lia ..|].
  by exists h, cls, reg.
Defined.

(** X15.  The prior-probability initialisation leaves the regression
    output alone: right after construction forward gives, on every
    input, the regression output that the head gives with its last
    layer as torch created it, and raises where that head raises. *)
Theorem combined_head_initial_regression
    (rng : initializer)
    (input_feature_size feature_size num_layers num_anchors num_classes : nat)
    (use_class_specific_bbox use_bg_predictor : bool) (p : R) :
  (0 < p < 1)%R →
  let created :=
    Conv2d.__init__ rng num_layers
      (if decide (num_layers = 0) then input_feature_size else feature_size)
      (num_anchors
       * ((if use_bg_predictor then num_classes + 1 else num_classes)
          + (if use_class_specific_bbox then 4 * num_classes else 4)))
      1 0 in
  ∃ h,
    CombinedHead.__init__ rng input_feature_size feature_size num_layers
      num_anchors (Some num_classes) use_class_specific_bbox use_bg_predictor p
    = Ok h
    ∧ ∀ x,
        snd <$> CombinedHead.forward h x
        = snd <$> CombinedHead.forward
                    (CombinedHead.Build (CombinedHead.total_num_classes h)
                       (CombinedHead.total_num_bbox h)
                       (CombinedHead.split_point h)
                       (conv_head rng input_feature_size feature_size num_layers
                          ++ [Conv created]))
                    x.
Proof.
  intros Hp created. rewrite CombinedHead_init_ok by done.
  eexists. split; [done|]. intros x. unfold CombinedHead.forward.
  cbn [CombinedHead.head CombinedHead.split_point CombinedHead.total_num_classes
       CombinedHead.total_num_bbox].
  set (classes := if use_bg_predictor then num_classes + 1 else num_classes) in *.
  set (bbox := if use_class_specific_bbox then 4 * num_classes else 4) in *.
  set (c := Conv2d.Build _ _ _ 1 0).
  rewrite !Sequential_snoc.
  destruct (Sequential _ x) as [t|]; [|done]. rewrite !bind_Ok.
  unfold layer_forward, Conv2d.forward.
  change (Conv2d.accepts c t) with (Conv2d.accepts created t).
  destruct (decide (Conv2d.accepts created t)); [|done]. rewrite !bind_Ok.
  assert ((λ img : list (list (list R)), drop (num_anchors * classes) img)
            <$> (Conv2d.forward_image c <$> t)
          = (λ img : list (list (list R)), drop (num_anchors * classes) img)
              <$> (Conv2d.forward_image created <$> t)) as ->.
  { rewrite <- !list_fmap_compose. apply list_fmap_ext. intros _ img _.
    cbv [compose].
    apply (initialized_drop rng input_feature_size feature_size num_layers
             num_anchors num_classes use_class_specific_bbox use_bg_predictor
             p img). }
  set (reg := permute_reshape bbox _). clearbody reg.
  destruct t as [|img t]; [done|]. rewrite !fmap_cons.
  unfold permute_reshape. cbv beta.
  assert (length (take (num_anchors * classes) (Conv2d.forward_image c img))
          * height (take (num_anchors * classes) (Conv2d.forward_image c img))
          * width (take (num_anchors * classes) (Conv2d.forward_image c img))
          = length (take (num_anchors * classes)
                      (Conv2d.forward_image created img))
            * height (take (num_anchors * classes)
                        (Conv2d.forward_image created img))
            * width (take (num_anchors * classes)
                       (Conv2d.forward_image created img))) as ->
    by exact (initialized_numel rng input_feature_size feature_size num_layers
                num_anchors num_classes use_class_specific_bbox
                use_bg_predictor p (num_anchors * classes) img).
  destruct (decide (0 < classes ∧ _)); [|done].
  by destruct reg.
Qed.

Lemma combined_head_initial_regression_witness :
  let rng := {| draw_weight := λ _ _ _ _ _, 1%R; draw_bias := λ _ _, 1%R |} in
  let created := Conv2d.__init__ rng 1 (if decide (1 = 0) then 2 else 2)
                   (3 * ((if true then 2 + 1 else 2) + (if false then 4 * 2 else 4)))
                   1 0 in
  ∃ h,
    CombinedHead.__init__ rng 2 2 1 3 (Some 2) false true 0.01 = Ok h
    ∧ ∀ x,
        snd <$> CombinedHead.forward h x
        = snd <$> CombinedHead.forward
                    (CombinedHead.Build (CombinedHead.total_num_classes h)
                       (CombinedHead.total_num_bbox h)
                       (CombinedHead.split_point h)
                       (conv_head rng 2 2 1 ++ [Conv created]))
                    x.
Proof.
  apply (combined_head_initial_regression
           {| draw_weight := λ _ _ _ _ _, 1%R; draw_bias := λ _ _, 1%R |}
           2 2 1 3 2 false true 0.01).
  lra.
Defined.

(** ** ComputeAnchors *)

(** [pretty] on integers writes them as Python's [str] does. *)
Example pretty_level_negative : pretty (-3)%Z = "-3".
Proof. reflexivity. Qed.

Example pretty_level_two_digits : pretty 12%Z = "12".
Proof. reflexivity. Qed.

Section ComputeAnchorsFacts.
Variable generate_anchors_at_window : R → list R → list R → list (list R).
Variable shift_anchors : list nat → R → list (list R) → list (list R).
Variable feature_levels : list Z.
Variable ratios : list R.
Variable scales_per_octave : nat.
Variables size_mult stride_mult : R.

(** The Anchor layer the constructor builds for a level. *)
Let layer_of (level : Z) : Anchor.t :=
  Anchor.__init__ generate_anchors_at_window ratios
    (ComputeAnchors.octave_scales scales_per_octave)
    (size_mult * powerRZ 2 level) (stride_mult * powerRZ 2 level).

Lemma foldl_insert_levels (levels : list Z) (d : gmap string Anchor.t) (level : Z) :
  foldl (λ anchor l, <[pretty l := layer_of l]> anchor) d levels !! pretty level
  = if decide (level ∈ levels) then Some (layer_of level) else d !! pretty level.
Proof.
  revert d. induction levels as [|l levels IH]; intros d.
  - destruct (decide (level ∈ [])) as [Hin|_]; [|done].
    by apply elem_of_nil in Hin.
  - cbn [foldl]. rewrite IH.
    destruct (decide (level ∈ levels)) as [Hin|Hnin];
      destruct (decide (level ∈ l :: levels)) as [Hin'|Hnin']; try done.
    + exfalso. apply Hnin'. by right.
    + apply elem_of_cons in Hin' as [->|?]; [|done].
      by rewrite lookup_insert_eq.
    + apply lookup_insert_ne. intros Heq. apply (inj pretty) in Heq.
      subst l. apply Hnin'. by left.
Qed.

(** The loop of the constructor: it stops at the first level from 1024
    on, and otherwise inserts one layer per level. *)
Lemma init_loop (levels : list Z) (acc : result (gmap string Anchor.t)) :
  foldl (λ acc level,
           anchor ← acc;
           size ← ComputeAnchors.times_pow2 size_mult level;
           stride ← ComputeAnchors.times_pow2 stride_mult level;
           Ok (<[pretty level :=
                   Anchor.__init__ generate_anchors_at_window ratios
                     (ComputeAnchors.octave_scales scales_per_octave)
                     size stride]> (anchor : gmap string Anchor.t)))
    acc levels
  = match acc with
    | Ok d =>
        if decide (Forall (λ l, (l < 1024)%Z) levels)
        then Ok (foldl (λ anchor l, <[pretty l := layer_of l]> anchor) d levels)
        else Raise OverflowError
    | Raise e => Raise e
    end.
Proof.
  revert acc. induction levels as [|l levels IH]; intros acc.
  - destruct acc; [|done]. by rewrite decide_True by constructor.
  - cbn [foldl]. rewrite IH. destruct acc as [d|e]; [|done]. csimpl.
    unfold ComputeAnchors.times_pow2.
    destruct (decide (1024 ≤ l)%Z) as [Hl|Hl]; csimpl.
    + rewrite decide_False; [done|]. intros Hall.
      apply Forall_cons in Hall as [? _]. lia.
    + destruct (decide (Forall _ levels)) as [Hall|Hall].
      * rewrite decide_True; [done|]. constructor; [lia|done].
      * rewrite decide_False; [done|]. intros Hall'.
        by apply Forall_cons in Hall' as [_ ?].
Qed.

Lemma init_cases :
  ComputeAnchors.__init__ generate_anchors_at_window feature_levels ratios
    scales_per_octave size_mult stride_mult
  = if decide (Forall (λ l, (l < 1024)%Z) feature_levels)
    then Ok (ComputeAnchors.Build
               (foldl (λ anchor l, <[pretty l := layer_of l]> anchor) ∅
                  feature_levels))
    else Raise OverflowError.
Proof.
  unfold ComputeAnchors.__init__. cbv zeta. rewrite init_loop.
  by destruct (decide _).
Qed.

Lemma forward_snoc (s : ComputeAnchors.t) (features : list (Z * list nat))
    (item : Z * list nat) :
  ComputeAnchors.forward shift_anchors s (features ++ [item])
  = (anchors ← ComputeAnchors.forward shift_anchors s features;
     layer ← match ComputeAnchors.anchor s !! pretty item.1 with
             | Some layer => Ok layer
             | None => Raise KeyError
             end;
     Ok (<[item.1 := Anchor.forward shift_anchors layer (last_two item.2)]>
           anchors)).
Proof. unfold ComputeAnchors.forward. by rewrite foldl_app. Qed.

Lemma forward_cases (s : ComputeAnchors.t) (features : list (Z * list nat)) :
  match ComputeAnchors.forward shift_anchors s features with
  | Ok r =>
      Forall (λ item, is_Some (ComputeAnchors.anchor s !! pretty item.1)) features
      ∧ dom r = list_to_set features.*1
      ∧ (NoDup features.*1 →
         ∀ level shape, (level, shape) ∈ features →
           ∃ layer, ComputeAnchors.anchor s !! pretty level = Some layer
                    ∧ r !! level
                      = Some (Anchor.forward shift_anchors layer (last_two shape)))
  | Raise e =>
      e = KeyError
      ∧ Exists (λ item, ComputeAnchors.anchor s !! pretty item.1 = None) features
  end.
Proof.
  induction features as [|item features IH] using rev_ind.
  - simpl. split; [constructor|]. split; [by rewrite dom_empty_L|].
    intros _ level shape Hin. by apply elem_of_nil in Hin.
  - rewrite forward_snoc.
    destruct (ComputeAnchors.forward shift_anchors s features) as [r|e]; csimpl.
    + destruct IH as (Hall & Hdom & Hval).
      destruct (ComputeAnchors.anchor s !! pretty item.1) as [layer|] eqn:Hl;
        csimpl.
      * split; [apply Forall_app; split; [done|]; by repeat constructor|].
        split.
        { rewrite dom_insert_L, Hdom, fmap_app, list_to_set_app_L. simpl.
          by rewrite (right_id_L ∅ (∪)), (comm_L (∪)). }
        intros Hnd level shape Hin.
        rewrite fmap_app in Hnd. apply NoDup_app in Hnd as (Hnd & Hfresh & _).
        apply elem_of_app in Hin as [Hin|Hin].
        -- assert (level ≠ item.1) as Hne.
           { intros ->. apply (Hfresh item.1); [|by constructor].
             apply list_elem_of_fmap. by exists (item.1, shape). }
           destruct (Hval Hnd level shape Hin) as (layer' & Hl' & Hr).
           exists layer'. split; [done|]. by rewrite lookup_insert_ne.
        -- apply list_elem_of_singleton in Hin. subst item. simpl in *.
           exists layer. split; [done|]. by rewrite lookup_insert_eq.
      * split; [done|]. apply Exists_app. right. by constructor.
    + destruct IH as [-> Hex]. split; [done|]. apply Exists_app. by left.
Qed.


Section Built.
(** A module the constructor returned. *)
Variable self : ComputeAnchors.t.
Hypothesis built :
  ComputeAnchors.__init__ generate_anchors_at_window feature_levels ratios
    scales_per_octave size_mult stride_mult = Ok self.

Lemma init_anchor_lookup (level : Z) :
  ComputeAnchors.anchor self !! pretty level
  = if decide (level ∈ feature_levels) then Some (layer_of level) else None.
Proof.
  pose proof built as Hb. rewrite init_cases in Hb.
  destruct (decide (Forall _ feature_levels)); [|done].
  injection Hb as <-. cbn [ComputeAnchors.anchor].
  by rewrite foldl_insert_levels, lookup_empty.
Qed.

(** X16. [ComputeAnchors.forward] on a module returned by [__init__] either
    returns a dict whose keys are exactly the levels of [features], and then
    every level of [features] is one of [feature_levels]; or it raises, and
    then the exception is a KeyError and some level of [features] is not one of
    [feature_levels]. *)
Theorem compute_anchors_forward_by_levels (features : list (Z * list nat)) :
  match ComputeAnchors.forward shift_anchors self features with
  | Ok r =>
      Forall (λ item, item.1 ∈ feature_levels) features
      ∧ dom r = list_to_set features.*1
  | Raise e =>
      e = KeyError ∧ Exists (λ item, item.1 ∉ feature_levels) features
  end.
Proof.
  pose proof (forward_cases self features) as H.
  destruct (ComputeAnchors.forward shift_anchors self features) as [r|e].
  - destruct H as (Hall & Hdom & _). split; [|done].
    eapply Forall_impl; [exact Hall|]. intros item [layer Hl].
    rewrite init_anchor_lookup in Hl. by destruct (decide (item.1 ∈ feature_levels)).
  - destruct H as [-> Hex]. split; [done|].
    eapply Exists_impl; [exact Hex|]. intros item Hl. cbv beta in Hl.
    rewrite init_anchor_lookup in Hl. by destruct (decide (item.1 ∈ feature_levels)).
Qed.

(** X17. When the levels of [features] are pairwise different (they are the
    keys of a dict) and all configured, [ComputeAnchors.forward] on a module
    returned by [__init__] returns, and
    the entry of each level is [shift_anchors] applied to the last two
    dimensions of that level's feature shape, the stride
    [stride_mult * 2 ** level] and the window anchors generated for the size
    [size_mult * 2 ** level]. *)
Theorem compute_anchors_forward_values (features : list (Z * list nat)) :
  NoDup features.*1 →
  Forall (λ item, item.1 ∈ feature_levels) features →
  ∃ r, ComputeAnchors.forward shift_anchors self features = Ok r
       ∧ ∀ level shape, (level, shape) ∈ features →
           r !! level
           = Some (shift_anchors (last_two shape) (stride_mult * powerRZ 2 level)
                     (generate_anchors_at_window (size_mult * powerRZ 2 level)
                        ratios (ComputeAnchors.octave_scales scales_per_octave))).
Proof.
  intros Hnd Hall. pose proof (forward_cases self features) as H.
  destruct (ComputeAnchors.forward shift_anchors self features) as [r|e].
  - exists r. split; [done|]. intros level shape Hin.
    destruct H as (_ & _ & Hval).
    destruct (Hval Hnd level shape Hin) as (layer & Hl & ->).
    rewrite init_anchor_lookup in Hl.
    destruct (decide (level ∈ feature_levels)); [|done].
    by simplify_eq.
  - destruct H as [_ Hex]. exfalso.
    apply Exists_exists in Hex as (item & Hin & Hl).
    rewrite init_anchor_lookup in Hl.
    rewrite Forall_forall in Hall. specialize (Hall item Hin).
    by rewrite decide_True in Hl.
Qed.
End Built.
End ComputeAnchorsFacts.

(** The constructor on small inputs: levels 3, 4, 5 give a module; a
    level of 1024 gives none. *)
Example compute_anchors_init_overflow :
  ComputeAnchors.__init__ (λ (size : R) (ratios scales : list R), [[0; 0; size; size]]%R)
    [3; 1024; 5]%Z [1%R] 3 4 1
  = Raise OverflowError.
Proof. reflexivity. Qed.

Lemma compute_anchors_forward_by_levels_witness :
  let generate := λ (size : R) (ratios scales : list R), [[0; 0; size; size]]%R in
  let shift := λ (shape : list nat) (stride : R) (anchors : list (list R)),
    (λ a : list R, (λ v : R, v + stride * INR (length shape))%R <$> a) <$> anchors in
  let features := [(4%Z, [1; 256; 4; 4]); (6%Z, [1; 256; 1; 1])] in
  ∃ self,
    ComputeAnchors.__init__ generate [3; 4; 5]%Z [1%R] 3 4 1 = Ok self
    ∧ match ComputeAnchors.forward shift self features with
      | Ok r =>
          Forall (λ item, item.1 ∈ [3; 4; 5]%Z) features
          ∧ dom r = list_to_set features.*1
      | Raise e =>
          e = KeyError ∧ Exists (λ item, item.1 ∉ [3; 4; 5]%Z) features
      end.
Proof.
  intros generate shift features. eexists. split; [reflexivity|].
  apply (compute_anchors_forward_by_levels generate shift [3; 4; 5]%Z [1%R] 3 4 1
           _ eq_refl features).
Defined.

Lemma compute_anchors_forward_values_witness :
  let generate := λ (size : R) (ratios scales : list R), [[0; 0; size; size]]%R in
  let shift := λ (shape : list nat) (stride : R) (anchors : list (list R)),
    (λ a : list R, (λ v : R, v + stride * INR (length shape))%R <$> a) <$> anchors in
  let features := [(4%Z, [1; 256; 4; 4]); (3%Z, [1; 256; 8; 8])] in
  ∃ self r,
    ComputeAnchors.__init__ generate [3; 4]%Z [1%R] 3 4 1 = Ok self
    ∧ ComputeAnchors.forward shift self features = Ok r
    ∧ ∀ level shape, (level, shape) ∈ features →
        r !! level
        = Some (shift (last_two shape) (1 * powerRZ 2 level)%R
                  (generate (4 * powerRZ 2 level)%R [1%R]
                     (ComputeAnchors.octave_scales 3))).
Proof.
  intros generate shift features. eexists.
  destruct (compute_anchors_forward_values generate shift [3; 4]%Z [1%R] 3 4 1
              _ eq_refl features) as (r & Hr & Hval).
  - apply (bool_decide_unpack _). vm_compute. exact I.
  - apply (bool_decide_unpack _). vm_compute. exact I.
  - exists r. split; [reflexivity|]. split; [exact Hr|exact Hval].
Defined.

Lemma octave_scales_lookup (scales_per_octave i : nat) (s : R) :
  ComputeAnchors.octave_scales scales_per_octave !! i = Some s →
  i < scales_per_octave ∧ s = Rpower 2 (INR i / INR scales_per_octave).
Proof.
  unfold ComputeAnchors.octave_scales. intros H.
  apply list_lookup_fmap_Some in H as (j & -> & Hj).
  apply lookup_seq in Hj as [-> Hlt]. done.
Qed.

Lemma octave_exponent_lt (n i j : nat) :
  i < j → j < n → (INR i / INR n < INR j / INR n)%R.
Proof.
  intros Hij Hjn. apply Rmult_lt_compat_r.
  - apply Rinv_0_lt_compat. apply (lt_INR 0). lia.
  - by apply lt_INR.
Qed.

(** X18. The scales computed by [ComputeAnchors.__init__] are
    [scales_per_octave] many and all lie within one octave: each is at least 1
    and below 2. *)
Theorem octave_scales_within_octave (scales_per_octave : nat) :
  length (ComputeAnchors.octave_scales scales_per_octave) = scales_per_octave
  ∧ Forall (λ s, (1 <= s < 2)%R) (ComputeAnchors.octave_scales scales_per_octave).
Proof.
  split.
  - unfold ComputeAnchors.octave_scales. by rewrite length_fmap, length_seq.
  - apply Forall_lookup_2. intros i s H.
    apply octave_scales_lookup in H as [Hlt ->].
    assert (0 < INR scales_per_octave)%R as Hn by (apply (lt_INR 0); lia).
    assert (0 <= INR i / INR scales_per_octave)%R as H0.
    { apply Rmult_le_pos; [apply pos_INR|].
      apply Rlt_le. by apply Rinv_0_lt_compat. }
    assert (INR i / INR scales_per_octave < 1)%R as H1.
    { apply (Rmult_lt_reg_r (INR scales_per_octave)); [done|].
      unfold Rdiv. rewrite Rmult_assoc, Rinv_l, Rmult_1_r, Rmult_1_l by lra.
      by apply lt_INR. }
    split.
    + rewrite <- (Rpower_O 2) by lra. apply Rle_Rpower; [lra|done].
    + rewrite <- (Rpower_1 2) at 2 by lra. apply Rpower_lt; [lra|done].
Qed.

(** X19. The scales computed by [ComputeAnchors.__init__] are strictly
    increasing with their position, so no two of them coincide. *)
Theorem octave_scales_increasing (scales_per_octave i j : nat) (si sj : R) :
  i < j →
  ComputeAnchors.octave_scales scales_per_octave !! i = Some si →
  ComputeAnchors.octave_scales scales_per_octave !! j = Some sj →
  (si < sj)%R.
Proof.
  intros Hij Hi Hj.
  apply octave_scales_lookup in Hi as [_ ->].
  apply octave_scales_lookup in Hj as [Hjn ->].
  apply Rpower_lt; [lra|]. by apply octave_exponent_lt.
Qed.

Lemma octave_scales_increasing_witness :
  ComputeAnchors.octave_scales 3 !! 0 = Some (Rpower 2 (INR 0 / INR 3))
  ∧ ComputeAnchors.octave_scales 3 !! 2 = Some (Rpower 2 (INR 2 / INR 3))
  ∧ (Rpower 2 (INR 0 / INR 3) < Rpower 2 (INR 2 / INR 3))%R.
Proof.
  split; [reflexivity|]. split; [reflexivity|].
  apply (octave_scales_increasing 3 0 2); [lia|reflexivity|reflexivity].
Defined.

Lemma last_two_app (batch : list nat) (h w : nat) :
  last_two (batch ++ [h; w]) = [h; w].
Proof.
  unfold last_two. rewrite length_app. simpl.
  replace (length batch + 2 - 2) with (length batch) by lia.
  by rewrite drop_app_length.
Qed.

(** X22. [ComputeAnchors.forward] reads of every feature only its level and
    the last two dimensions of its shape: two feature dicts that list the same
    levels in the same order, with shapes that agree on their last two
    dimensions, give the same result, be it a dict or the KeyError. *)
Theorem compute_anchors_forward_reads_spatial_dims
    (shift_anchors : list nat → R → list (list R) → list (list R))
    (self : ComputeAnchors.t) (features features' : list (Z * list nat)) :
  Forall2 (λ item item', item.1 = item'.1 ∧ last_two item.2 = last_two item'.2)
    features features' →
  ComputeAnchors.forward shift_anchors self features
  = ComputeAnchors.forward shift_anchors self features'.
Proof.
  intros H. unfold ComputeAnchors.forward.
  generalize (Ok ∅ : result (gmap Z (list (list R)))).
  induction H as [|item item' features features' [Hl Hs] _ IH]; intros acc.
  - done.
  - cbn [foldl]. rewrite Hl, Hs. apply IH.
Qed.

Lemma compute_anchors_forward_reads_spatial_dims_witness :
  let generate := λ (size : R) (ratios scales : list R), [[0; 0; size; size]]%R in
  let shift := λ (shape : list nat) (stride : R) (anchors : list (list R)),
    (λ a : list R, (λ v : R, v + stride * INR (length shape))%R <$> a) <$> anchors in
  ∃ self,
    ComputeAnchors.__init__ generate [3; 4]%Z [1%R] 3 4 1 = Ok self
    ∧ ComputeAnchors.forward shift self
        [(3%Z, [1; 256; 8; 8]); (4%Z, [1; 256; 4; 4])]
      = ComputeAnchors.forward shift self [(3%Z, [16; 8; 8]); (4%Z, [4; 4])].
Proof.
  intros generate shift. eexists. split; [reflexivity|].
  apply (compute_anchors_forward_reads_spatial_dims shift).
  repeat constructor.
Defined.
